(** * ActivityBoard: the view-synchronisation script [src/static/app.js]

    A shallow embedding of the browser script and the proofs of its
    specification.  The script is one [DOMContentLoaded] callback that
    declares [showMessage], [updateActivityCard], [fetchActivities], a
    submit handler and a delegated click handler.

    Conventions of the embedding.
    - JavaScript strings are [string]s: the UTF-8 bytes of a string
      without lone surrogates ([Str.well_formed]).  A string with a lone
      surrogate has no UTF-8 bytes; [encodeURIComponent] throws on such
      strings and on no others, and the theorems that say a request is
      sent whatever the values are state well-formedness.
    - The server's JSON is typed by the HTTP contract: a catalog is the
      list of own entries of the parsed object in [Object.entries] order,
      each an [Activity]; a capacity is the integer the body carries.  The
      script sees it as a double ([Number]): rounded when it is parsed,
      rounded again when the number of participants is subtracted, and
      printed as [Number::toString] prints.
    - The DOM is a tree of [Node]s; an element reference is a [Path] into
      the children of the container [#activities-list].  The host page and
      its style sheet are not part of the script: only the script writes
      the attribute [data-activity-name], and the message is shown unless
      it carries the class [hidden].  The two values of the form are
      fields of the page state of their own: how the value of [#activity]
      follows the options of the select is the host page's business, and
      no theorem below says that a load which appends options leaves that
      value alone.
    - Effects are threaded through a state-and-exception monad [Js] over
      the page state [World], which also holds what the server is going to
      answer and the pending timers.  An [await] runs to completion in
      place: the script has one activity in flight at a time in every run
      considered here. *)

From stdpp Require Import base strings list pretty.
From Stdlib Require Import ZArith Ascii.

Set Warnings "-register-all,-abstract-large-number".
Local Open Scope string_scope.
Local Open Scope list_scope.

(** ** Strings *)

Module Str.

(** ASCII whitespace as used by [DOMTokenList] and by the CSS tokenizer:
    tab, line feed, form feed, carriage return and space. *)
Definition is_space (c : ascii) : bool :=
  let n := nat_of_ascii c in
  (n =? 9)%nat || (n =? 10)%nat || (n =? 12)%nat || (n =? 13)%nat || (n =? 32)%nat.

(** Splitting at white space; [cur] is the current word, reversed. *)
Fixpoint tokens_go (cur : string) (s : string) : list string :=
  match s with
  | EmptyString => if bool_decide (cur = "") then [] else [String.rev cur]
  | String c r =>
      if is_space c
      then (if bool_decide (cur = "") then tokens_go "" r
            else String.rev cur :: tokens_go "" r)
      else tokens_go (String c cur) r
  end.

(** The words of a list that are not in [seen], each once, in order of
    first occurrence. *)
Fixpoint distinct (seen : list string) (l : list string) : list string :=
  match l with
  | [] => []
  | x :: r =>
      if bool_decide (x ∈ seen) then distinct seen r else x :: distinct (x :: seen) r
  end.

(** The token set of a [className] string: its words, each once, in order
    of first occurrence. *)
Definition tokens (s : string) : list string := distinct [] (tokens_go "" s).

Definition hex_digit (n : nat) : ascii :=
  ascii_of_nat (if (n <? 10)%nat then 48 + n else 55 + n).

(** Bytes that [encodeURIComponent] leaves alone:
    [A-Z a-z 0-9 - _ . ! ~ * ' ( )]. *)
Definition uri_unreserved (c : ascii) : bool :=
  let n := nat_of_ascii c in
  ((65 <=? n) && (n <=? 90))%nat || ((97 <=? n) && (n <=? 122))%nat
  || ((48 <=? n) && (n <=? 57))%nat
  || (n =? 45)%nat || (n =? 95)%nat || (n =? 46)%nat || (n =? 33)%nat
  || (n =? 126)%nat || (n =? 42)%nat || (n =? 39)%nat || (n =? 40)%nat
  || (n =? 41)%nat.

(** [encodeURIComponent] on a string that has UTF-8 bytes: each byte
    stays or becomes a percent escape.  On a string with a lone surrogate
    the built-in throws a [URIError]; such a string is no [string] here
    (see [well_formed] below). *)
Fixpoint encodeURIComponent (s : string) : string :=
  match s with
  | EmptyString => ""
  | String c r =>
      if uri_unreserved c then String c (encodeURIComponent r)
      else let n := nat_of_ascii c in
           String "%" (String (hex_digit (n / 16))
                         (String (hex_digit (n mod 16)) (encodeURIComponent r)))
  end.

(** Well-formed UTF-8: [need] bytes of the current character are still to
    come, the next of them between [lo] and [hi].  The bounds after the
    lead bytes [E0], [ED], [F0] and [F4] exclude overlong forms, the
    surrogates and what lies beyond U+10FFFF. *)
Fixpoint utf8_from (need lo hi : nat) (s : string) : bool :=
  match s with
  | EmptyString => (need =? 0)%nat
  | String c r =>
      let n := nat_of_ascii c in
      match need with
      | O =>
          if (n <? 128)%nat then utf8_from 0 128 191 r
          else if ((194 <=? n) && (n <=? 223))%nat then utf8_from 1 128 191 r
          else if (n =? 224)%nat then utf8_from 2 160 191 r
          else if (n =? 237)%nat then utf8_from 2 128 159 r
          else if ((225 <=? n) && (n <=? 239))%nat then utf8_from 2 128 191 r
          else if (n =? 240)%nat then utf8_from 3 144 191 r
          else if (n =? 244)%nat then utf8_from 3 128 143 r
          else if ((241 <=? n) && (n <=? 243))%nat then utf8_from 3 128 191 r
          else false
      | S need' => ((lo <=? n) && (n <=? hi))%nat && utf8_from need' 128 191 r
      end
  end.

(** The strings [encodeURIComponent] accepts: those without a lone
    surrogate, which are the strings that have UTF-8 bytes. *)
Definition well_formed (s : string) : bool := utf8_from 0 128 191 s.

End Str.

(** ** Numbers *)

Module Number.

(** The numbers of the script: a capacity, the length of an array, their
    difference.  They are doubles whose value is an integer, or infinite;
    [NaN] completes the subtraction. *)
Inductive t :=
| Finite (z : Z)
| Infinity (negative : bool)
| NaN.

(** The double nearest to a natural number, ties to even: the 53 leading
    bits are kept, the rest decides the rounding. *)
Definition round_pos (n : Z) : Z :=
  let e := (Z.log2 n - 52)%Z in
  if (e <=? 0)%Z then n
  else
    let q := Z.shiftr n e in
    let r := (n - Z.shiftl q e)%Z in
    let half := Z.shiftl 1 (e - 1) in
    let q := if (r <? half)%Z then q
             else if (half <? r)%Z then (q + 1)%Z
             else if Z.even q then q else (q + 1)%Z in
    Z.shiftl q e.

(** The number [JSON.parse] makes of an integer, and the number an array
    length is. *)
Definition of_Z (z : Z) : t :=
  let m := round_pos (Z.abs z) in
  if (2 ^ 1024 <=? m)%Z then Infinity (z <? 0)%Z else Finite (Z.sgn z * m).

(** [a - b]: the exact difference, rounded. *)
Definition sub (a b : t) : t :=
  match a, b with
  | Finite x, Finite y => of_Z (x - y)
  | Infinity s, Finite _ => Infinity s
  | Finite _, Infinity s => Infinity (negb s)
  | Infinity s, Infinity s' => if Bool.eqb s s' then NaN else Infinity s
  | _, _ => NaN
  end.

(** The reals that round to the double [v], for [v] above [2 ^ 53]: from
    half way to the double below to half way to the double above, the two
    ends included when the significand of [v] is even. *)
Definition interval (v : Z) : Z * Z * bool :=
  let e := (Z.log2 v - 52)%Z in
  let q := Z.shiftr v e in
  let up := Z.shiftl 1 (e - 1) in
  let down := if (q =? 2 ^ 52)%Z then Z.shiftl 1 (e - 2) else up in
  ((v - down)%Z, (v + up)%Z, Z.even q).

Definition within (range : Z * Z * bool) (c : Z) : bool :=
  let '(lo, hi, closed) := range in
  if closed then (lo <=? c)%Z && (c <=? hi)%Z else (lo <? c)%Z && (c <? hi)%Z.

(** The integer with the fewest significant digits that rounds to [v]:
    the multiple of the largest power of ten, [10 ^ j] or below, that lies
    in the interval; of two, the one nearer to [v], and the even one when
    they are as near. *)
Fixpoint shortest (j : nat) (v : Z) (range : Z * Z * bool) : Z :=
  match j with
  | O => v
  | S j' =>
      let u := (10 ^ Z.of_nat j)%Z in
      let d := (v / u * u)%Z in
      let p := (d + u)%Z in
      match within range d, within range p with
      | true, true =>
          if (v - d <? p - v)%Z then d
          else if (p - v <? v - d)%Z then p
          else if Z.even (d / u) then d else p
      | true, false => d
      | false, true => p
      | false, false => shortest j' v range
      end
  end.

Fixpoint strip_zeros (fuel : nat) (s : Z) : Z :=
  match fuel with
  | O => s
  | S f => if (s mod 10 =? 0)%Z then strip_zeros f (s / 10)%Z else s
  end.

(** [Number::toString] of a double above [2 ^ 53]: the digits of the
    shortest integer that rounds to it, in full up to 21 digits and with
    an exponent beyond. *)
Definition decimal (v : Z) : string :=
  let c := shortest (String.length (pretty v)) v (interval v) in
  let digits := pretty c in
  let n := String.length digits in
  if (n <=? 21)%nat then digits
  else
    match pretty (strip_zeros n c) with
    | String d EmptyString => String d ("e+" +:+ pretty (Z.of_nat (n - 1)))
    | String d rest => String d ("." +:+ rest +:+ "e+" +:+ pretty (Z.of_nat (n - 1)))
    | EmptyString => ""
    end.

(** [String(x)], as in a template literal or [textContent].  Up to
    [2 ^ 53] the shortest digits are the digits of the integer. *)
Definition to_string (x : t) : string :=
  match x with
  | NaN => "NaN"
  | Infinity negative => if negative then "-Infinity" else "Infinity"
  | Finite z =>
      if (Z.abs z <=? 2 ^ 53)%Z then pretty z
      else (if (z <? 0)%Z then "-" else "") +:+ decimal (Z.abs z)
  end.

(** The integers on which the arithmetic of doubles is exact. *)
Definition exact (z : Z) : bool := (Z.abs z <=? 2 ^ 53)%Z.

End Number.

(** ** Server data (section 3 of the specification, section 6 for the wire
    names) *)

Record Activity := {
  description : string;
  schedule : string;
  max_participants : Z;
  participants : list string
}.

(** The parsed response of [GET /activities]: own entries, in the order
    [Object.entries] yields them. *)
Definition Catalog := list (string * Activity).

Definition keys (activities : Catalog) : list string := activities.*1.

(** What [activities[activityName]] evaluates to.  The object produced by
    [response.json()] inherits from [Object.prototype], so a name that is
    not an own key can still resolve to an inherited (truthy) member. *)
Inductive Property :=
| Own (details : Activity)
| Inherited
| Undefined.

Definition object_prototype : list string :=
  [ "constructor"; "hasOwnProperty"; "isPrototypeOf"; "propertyIsEnumerable";
    "toLocaleString"; "toString"; "valueOf"; "__proto__";
    "__defineGetter__"; "__defineSetter__"; "__lookupGetter__";
    "__lookupSetter__" ].

Fixpoint own_property (activities : Catalog) (name : string) : option Activity :=
  match activities with
  | [] => None
  | (k, details) :: rest =>
      if bool_decide (k = name) then Some details else own_property rest name
  end.

Definition get_property (activities : Catalog) (name : string) : Property :=
  match own_property activities name with
  | Some details => Own details
  | None => if bool_decide (name ∈ object_prototype) then Inherited else Undefined
  end.

(** ** The DOM *)

Inductive Node :=
| Text (data : string)
| Elem (tagName : string) (classList : list string)
       (attributes : list (string * string)) (childNodes : list Node).

Definition Path := list nat.

Module Dom.

Definition createElement (tag : string) : Node := Elem tag [] [] [].
Definition createTextNode (data : string) : Node := Text data.

Definition children (n : Node) : list Node :=
  match n with Elem _ _ _ ch => ch | Text _ => [] end.

Definition classes (n : Node) : list string :=
  match n with Elem _ cl _ _ => cl | Text _ => [] end.

Definition attrs (n : Node) : list (string * string) :=
  match n with Elem _ _ at_ _ => at_ | Text _ => [] end.

Definition with_children (f : list Node → list Node) (n : Node) : Node :=
  match n with
  | Elem tag cl at_ ch => Elem tag cl at_ (f ch)
  | Text _ => n
  end.

(** [el.className = value] *)
Definition className (value : string) (n : Node) : Node :=
  match n with
  | Elem tag _ at_ ch => Elem tag (Str.tokens value) at_ ch
  | Text _ => n
  end.

Fixpoint assoc_set (k v : string) (l : list (string * string)) :=
  match l with
  | [] => [(k, v)]
  | (k', v') :: r =>
      if bool_decide (k' = k) then (k, v) :: r else (k', v') :: assoc_set k v r
  end.

Fixpoint assoc_get (k : string) (l : list (string * string)) : option string :=
  match l with
  | [] => None
  | (k', v) :: r => if bool_decide (k' = k) then Some v else assoc_get k r
  end.

(** [el.setAttribute(name, value)]; also [el.dataset.x = value] and
    [option.value = value], which reflect attributes. *)
Definition setAttribute (name value : string) (n : Node) : Node :=
  match n with
  | Elem tag cl at_ ch => Elem tag cl (assoc_set name value at_) ch
  | Text _ => n
  end.

Definition getAttribute (name : string) (n : Node) : option string :=
  assoc_get name (attrs n).

(** [el.textContent = value]: all children are replaced by one text
    node, or by nothing when the string is empty. *)
Definition textContent (value : string) (n : Node) : Node :=
  with_children (λ _, if bool_decide (value = "") then [] else [Text value]) n.

Definition appendChild (child : Node) (n : Node) : Node :=
  with_children (λ ch, ch ++ [child]) n.

(** Reading [el.textContent]: the text of all descendants, in order. *)
Fixpoint text_of (n : Node) : string :=
  match n with
  | Text data => data
  | Elem _ _ _ ch =>
      (fix go (l : list Node) : string :=
         match l with
         | [] => ""
         | x :: r => text_of x +:+ go r
         end) ch
  end.

Definition has_class (cls : string) (n : Node) : bool :=
  bool_decide (cls ∈ classes n).

Definition has_attr (name value : string) (n : Node) : bool :=
  bool_decide (getAttribute name n = Some value).

(** First node, in document order, among [n] and its descendants that
    satisfies [p]; the answer is the path from [n]. *)
Fixpoint first_match (p : Node → bool) (n : Node) : option Path :=
  if p n then Some []
  else match n with
       | Text _ => None
       | Elem _ _ _ ch =>
           (fix go (i : nat) (l : list Node) : option Path :=
              match l with
              | [] => None
              | x :: r =>
                  match first_match p x with
                  | Some q => Some (i :: q)
                  | None => go (S i) r
                  end
              end) 0%nat ch
       end.

Fixpoint first_from (p : Node → bool) (i : nat) (l : list Node) : option Path :=
  match l with
  | [] => None
  | x :: r =>
      match first_match p x with
      | Some q => Some (i :: q)
      | None => first_from p (S i) r
      end
  end.

(** First match among a list of sibling trees. *)
Definition first_in (p : Node → bool) (l : list Node) : option Path :=
  first_from p 0 l.

Fixpoint get_at (path : Path) (l : list Node) : option Node :=
  match path with
  | [] => None
  | i :: q =>
      match l !! i with
      | None => None
      | Some n => match q with [] => Some n | _ => get_at q (children n) end
      end
  end.

(** Apply [f] to the node a path designates, leaving the rest alone. *)
Fixpoint modify_at (path : Path) (f : Node → Node) (l : list Node) : list Node :=
  match path with
  | [] => l
  | i :: q =>
      match q with
      | [] => alter f i l
      | _ => alter (with_children (modify_at q f)) i l
      end
  end.

End Dom.

(** ** The selector [[data-activity-name="NAME"]]

    [updateActivityCard] splices the activity name, unescaped, between the
    quotes of an attribute selector.  The CSS tokenizer reads the name as
    the body of a string token, so the selector means "attribute equals
    NAME" only when the name has no character that is special there. *)

Module Css.

(** What the tokenizer makes of the selector
    [[data-activity-name="NAME"]] for a given name. *)
Inductive Reading :=
| Exact          (* valid; matches elements whose attribute is the name *)
| Escaped (value : string)
                 (* valid; the name holds escapes or NUL and the selector
                    matches elements whose attribute is [value] *)
| Invalid        (* not a selector: querySelector throws a SyntaxError *)
| Uninterpreted. (* some other selector; outside this embedding *)

Definition code (c : ascii) : nat := nat_of_ascii c.

(** What follows a string token inside the brackets may only be white
    space, the modifier [i] or [s], and the closing bracket.  [rest] is
    the part of the name after its first double quote; the text that the
    tokenizer still has to read is [rest] followed by a double quote and
    a closing bracket.  The answer is [true] when that text certainly
    does not continue a selector: it begins (after white space) with the
    opening of a new string, or with a character that starts neither the
    closing bracket, a modifier, an escape nor a comment. *)
Fixpoint stray_after_string (rest : string) : bool :=
  match rest with
  | EmptyString => true
  | String c r =>
      if Str.is_space c then stray_after_string r
      else negb (bool_decide (code c ∈ [93; 105; 73; 115; 83; 92; 47]%nat))
  end.

(** A name without any of the characters that are special inside a string
    token: NUL, line feed, form feed, carriage return, double quote and
    backslash. *)
Definition special (c : ascii) : bool :=
  let n := code c in
  ((n =? 0) || (n =? 10) || (n =? 12) || (n =? 13) || (n =? 34) || (n =? 92))%nat.

Fixpoint plain (name : string) : bool :=
  match name with
  | EmptyString => true
  | String c r => negb (special c) && plain r
  end.

Definition hex_value (c : ascii) : option N :=
  let n := N_of_ascii c in
  if ((48 <=? n) && (n <=? 57))%N then Some (n - 48)%N
  else if ((65 <=? n) && (n <=? 70))%N then Some (n - 55)%N
  else if ((97 <=? n) && (n <=? 102))%N then Some (n - 87)%N
  else None.

Definition byte (n : N) : ascii := ascii_of_N n.

(** The UTF-8 bytes of a code point. *)
Definition utf8 (cp : N) : string :=
  if (cp <? 128)%N then String (byte cp) ""
  else if (cp <? 2048)%N then
    String (byte (192 + cp / 64)) (String (byte (128 + cp mod 64)) "")
  else if (cp <? 65536)%N then
    String (byte (224 + cp / 4096))
      (String (byte (128 + cp / 64 mod 64)) (String (byte (128 + cp mod 64)) ""))
  else
    String (byte (240 + cp / 262144))
      (String (byte (128 + cp / 4096 mod 64))
         (String (byte (128 + cp / 64 mod 64)) (String (byte (128 + cp mod 64)) ""))).

(** U+FFFD, which stands for NUL and for an escape that names zero, a
    surrogate or a number beyond U+10FFFF. *)
Definition replacement : N := 65533%N.

Definition escaped_code_point (v : N) : N :=
  if ((v =? 0) || ((55296 <=? v) && (v <=? 57343)) || (1114111 <? v))%N
  then replacement else v.

(** Where the tokenizer is inside the string token. *)
Inductive Scan :=
| Chars                       (* between characters *)
| Backslash                   (* after a backslash *)
| Hex (count : nat) (v : N)   (* after a backslash and [count] hex digits *)
| AfterCR.                    (* after a carriage return that an escape took *)

Inductive Token :=
| Value (s : string)          (* a string token that ends at the closing quote *)
| BadString                   (* no selector *)
| Other.                      (* the string ends inside the name, or not at all *)

Definition prepend (s : string) (token : Token) : Token :=
  match token with Value v => Value (s +:+ v) | _ => token end.

(** Consume a string token (CSS Syntax, section 4.3.5) over the name,
    after the preprocessing that turns form feed and carriage return
    into line feed and NUL into U+FFFD.  A line break ends the token
    badly; a backslash before a line break continues the line; a
    backslash before hex digits takes up to six of them and one white
    space; a backslash before anything else stands for that character.
    A backslash at the very end of the name takes the closing quote, and
    the string runs on to the end of the selector. *)
Fixpoint scan (state : Scan) (name : string) : Token :=
  match name with
  | EmptyString =>
      match state with
      | Chars | AfterCR => Value ""
      | Hex _ v => Value (utf8 (escaped_code_point v))
      | Backslash => Other
      end
  | String c r =>
      let n := code c in
      let character :=
        if ((n =? 10) || (n =? 12) || (n =? 13))%nat then BadString
        else if (n =? 34)%nat then
               (if stray_after_string r then BadString else Other)
        else if (n =? 92)%nat then scan Backslash r
        else if (n =? 0)%nat then prepend (utf8 replacement) (scan Chars r)
        else prepend (String c "") (scan Chars r) in
      match state with
      | Chars => character
      | AfterCR => if (n =? 10)%nat then scan Chars r else character
      | Backslash =>
          match hex_value c with
          | Some d => scan (Hex 1 d) r
          | None =>
              if ((n =? 10) || (n =? 12))%nat then scan Chars r
              else if (n =? 13)%nat then scan AfterCR r
              else if (n =? 0)%nat then prepend (utf8 replacement) (scan Chars r)
              else prepend (String c "") (scan Chars r)
          end
      | Hex count v =>
          match hex_value c with
          | Some d =>
              if (count <? 6)%nat then scan (Hex (S count) (16 * v + d)) r
              else prepend (utf8 (escaped_code_point v)) character
          | None =>
              prepend (utf8 (escaped_code_point v))
                (if (n =? 13)%nat then scan AfterCR r
                 else if Str.is_space c then scan Chars r
                 else character)
          end
      end
  end.

Definition read_name (name : string) : Reading :=
  match scan Chars name with
  | Value value => if plain name then Exact else Escaped value
  | BadString => Invalid
  | Other => Uninterpreted
  end.

End Css.

(** ** The page state and the effect monad *)

(** A JavaScript value that is a string or [undefined] (a missing field of
    a response body, a missing [data-] attribute). *)
Inductive Value :=
| VString (s : string)
| VUndefined.

Module Val.

(** String conversion as in a template literal or [encodeURIComponent]. *)
Definition to_string (v : Value) : string :=
  match v with VString s => s | VUndefined => "undefined" end.

Definition truthy (v : Value) : bool :=
  match v with VString s => negb (bool_decide (s = "")) | VUndefined => false end.

(** [a || b] *)
Definition or (a b : Value) : Value := if truthy a then a else b.

(** Conversion to the nullable string of [textContent]: [undefined]
    becomes [null], which the setter treats as the empty string. *)
Definition to_text (v : Value) : string :=
  match v with VString s => s | VUndefined => "" end.

Definition of_option (o : option string) : Value :=
  match o with Some s => VString s | None => VUndefined end.

End Val.

Inductive JsError :=
| FetchFailed         (* fetch rejected: the request did not complete *)
| BodyNotJson         (* response.json() rejected *)
| InvalidSelector     (* querySelector: SyntaxError *)
| NullReference       (* a property of null was written *)
| UndefinedReference. (* a property of undefined was read *)

Inductive Effect :=
| Request (method url : string)
| ConsoleError (message : string) (error : option JsError)
| Confirm (message : string)
| ParseHTML (markup : string)
| PreventDefault
| FormReset.

(** An HTTP response whose body has been read: [body] is [None] when the
    body is not JSON. *)
Record Response (A : Type) := { ok : bool; body : option A }.
Arguments ok {A} _.
Arguments body {A} _.

(** The body of a signup or unregister response. *)
Record Result := { message : option string; detail : option string }.

Record Form := { email_value : string; activity_value : string }.

(** The element [#message]: the script only writes its text and its class
    list. *)
Record MessageDiv := { text : string; classes : list string }.

Module Message.

(** [messageDiv.textContent = value] *)
Definition textContent (value : string) (m : MessageDiv) : MessageDiv :=
  {| text := value; classes := classes m |}.

(** [messageDiv.className = value] *)
Definition className (value : string) (m : MessageDiv) : MessageDiv :=
  {| text := text m; classes := Str.tokens value |}.

(** [messageDiv.classList.remove(token)] *)
Definition classList_remove (token : string) (m : MessageDiv) : MessageDiv :=
  {| text := text m; classes := filter (λ c, c ≠ token) (classes m) |}.

(** [messageDiv.classList.add(token)] *)
Definition classList_add (token : string) (m : MessageDiv) : MessageDiv :=
  {| text := text m;
     classes := if bool_decide (token ∈ classes m) then classes m
                else classes m ++ [token] |}.

End Message.

Record World := {
  activitiesList : list Node;  (* children of #activities-list *)
  activitySelect : list Node;  (* children of #activity *)
  messageDiv : MessageDiv;     (* #message *)
  signupForm : Form;           (* current values of #email and #activity *)
  formDefaults : Form;         (* the values the host page resets them to *)
  trace : list Effect;         (* observable effects, oldest first *)
  (* what the server will answer, per endpoint kind; [None] is a request
     that does not complete, and so is an exhausted script *)
  catalogReplies : list (option (Response Catalog));
  actionReplies : list (option (Response Result));
  clock : nat;                 (* milliseconds *)
  timers : list nat            (* due times of the pending hide callbacks *)
}.

Definition set_activitiesList (f : list Node → list Node) (w : World) : World :=
  {| activitiesList := f (activitiesList w); activitySelect := activitySelect w;
     messageDiv := messageDiv w; signupForm := signupForm w;
     formDefaults := formDefaults w; trace := trace w;
     catalogReplies := catalogReplies w; actionReplies := actionReplies w;
     clock := clock w; timers := timers w |}.

Definition set_activitySelect (f : list Node → list Node) (w : World) : World :=
  {| activitiesList := activitiesList w; activitySelect := f (activitySelect w);
     messageDiv := messageDiv w; signupForm := signupForm w;
     formDefaults := formDefaults w; trace := trace w;
     catalogReplies := catalogReplies w; actionReplies := actionReplies w;
     clock := clock w; timers := timers w |}.

Definition set_messageDiv (f : MessageDiv → MessageDiv) (w : World) : World :=
  {| activitiesList := activitiesList w; activitySelect := activitySelect w;
     messageDiv := f (messageDiv w); signupForm := signupForm w;
     formDefaults := formDefaults w; trace := trace w;
     catalogReplies := catalogReplies w; actionReplies := actionReplies w;
     clock := clock w; timers := timers w |}.

Definition set_signupForm (f : Form → Form) (w : World) : World :=
  {| activitiesList := activitiesList w; activitySelect := activitySelect w;
     messageDiv := messageDiv w; signupForm := f (signupForm w);
     formDefaults := formDefaults w; trace := trace w;
     catalogReplies := catalogReplies w; actionReplies := actionReplies w;
     clock := clock w; timers := timers w |}.

Definition set_trace (f : list Effect → list Effect) (w : World) : World :=
  {| activitiesList := activitiesList w; activitySelect := activitySelect w;
     messageDiv := messageDiv w; signupForm := signupForm w;
     formDefaults := formDefaults w; trace := f (trace w);
     catalogReplies := catalogReplies w; actionReplies := actionReplies w;
     clock := clock w; timers := timers w |}.

Definition set_catalogReplies
    (f : list (option (Response Catalog)) → list (option (Response Catalog)))
    (w : World) : World :=
  {| activitiesList := activitiesList w; activitySelect := activitySelect w;
     messageDiv := messageDiv w; signupForm := signupForm w;
     formDefaults := formDefaults w; trace := trace w;
     catalogReplies := f (catalogReplies w); actionReplies := actionReplies w;
     clock := clock w; timers := timers w |}.

Definition set_actionReplies
    (f : list (option (Response Result)) → list (option (Response Result)))
    (w : World) : World :=
  {| activitiesList := activitiesList w; activitySelect := activitySelect w;
     messageDiv := messageDiv w; signupForm := signupForm w;
     formDefaults := formDefaults w; trace := trace w;
     catalogReplies := catalogReplies w; actionReplies := f (actionReplies w);
     clock := clock w; timers := timers w |}.

Definition set_clock (f : nat → nat) (w : World) : World :=
  {| activitiesList := activitiesList w; activitySelect := activitySelect w;
     messageDiv := messageDiv w; signupForm := signupForm w;
     formDefaults := formDefaults w; trace := trace w;
     catalogReplies := catalogReplies w; actionReplies := actionReplies w;
     clock := f (clock w); timers := timers w |}.

Definition set_timers (f : list nat → list nat) (w : World) : World :=
  {| activitiesList := activitiesList w; activitySelect := activitySelect w;
     messageDiv := messageDiv w; signupForm := signupForm w;
     formDefaults := formDefaults w; trace := trace w;
     catalogReplies := catalogReplies w; actionReplies := actionReplies w;
     clock := clock w; timers := f (timers w) |}.

(** How a computation ends: normally, by a thrown exception, or at a point
    where the embedding does not determine what the browser does. *)
Inductive Completion (A : Type) :=
| Normal (value : A)
| Throw (error : JsError)
| Unmodelled.
Arguments Normal {A} _.
Arguments Throw {A} _.
Arguments Unmodelled {A}.

Definition Js (A : Type) : Type := World → Completion A * World.

Global Instance Js_ret : MRet Js := λ A a w, (Normal a, w).

Global Instance Js_bind : MBind Js := λ A B k m w,
  match m w with
  | (Normal a, w') => k a w'
  | (Throw e, w') => (Throw e, w')
  | (Unmodelled, w') => (Unmodelled, w')
  end.

Module Monad.

Definition throw {A} (e : JsError) : Js A := λ w, (Throw e, w).
Definition unmodelled {A} : Js A := λ w, (Unmodelled, w).

(** [try { body } catch (error) { handler }]: the state reached when the
    exception was thrown is kept. *)
Definition try_catch {A} (body : Js A) (handler : JsError → Js A) : Js A :=
  λ w, match body w with
       | (Throw e, w') => handler e w'
       | r => r
       end.

Definition gets {A} (f : World → A) : Js A := λ w, (Normal (f w), w).
Definition modify (f : World → World) : Js unit := λ w, (Normal (), f w).
Definition emit (e : Effect) : Js unit := modify (set_trace (λ t, t ++ [e])).

Fixpoint forEach {A} (l : list A) (f : A → Js unit) : Js unit :=
  match l with
  | [] => mret ()
  | x :: r => f x ;; forEach r f
  end.

(** The state a computation leaves behind. *)
Definition exec {A} (m : Js A) (w : World) : World := (m w).2.
Definition completion {A} (m : Js A) (w : World) : Completion A := (m w).1.

End Monad.

(** ** Browser primitives used by the script *)

Module Browser.
Import Monad.

Definition failure_text : string :=
  "Failed to load activities. Please try again later.".

(** The HTML fragment parser on the two markups the script assigns to
    [innerHTML]; any other markup is outside the embedding. *)
Definition parse_fragment (markup : string) : option (list Node) :=
  if bool_decide (markup = "") then Some []
  else if bool_decide (markup = "<p>" +:+ failure_text +:+ "</p>")
       then Some [Elem "p" [] [] [Text failure_text]]
       else None.

(** [await fetch("/activities")] *)
Definition fetch_activities : Js (Response Catalog) :=
  emit (Request "GET" "/activities") ;;
  reply ← gets (λ w, head (catalogReplies w));
  modify (set_catalogReplies tail) ;;
  match reply with
  | Some (Some response) => mret response
  | _ => throw FetchFailed
  end.

(** [await fetch(url, { method })] on the signup and unregister endpoints *)
Definition fetch_action (method url : string) : Js (Response Result) :=
  emit (Request method url) ;;
  reply ← gets (λ w, head (actionReplies w));
  modify (set_actionReplies tail) ;;
  match reply with
  | Some (Some response) => mret response
  | _ => throw FetchFailed
  end.

(** [await response.json()] *)
Definition json {A} (response : Response A) : Js A :=
  match body response with
  | Some value => mret value
  | None => throw BodyNotJson
  end.

Definition console_error (message : string) (error : option JsError) : Js unit :=
  emit (ConsoleError message error).

(** [document.querySelector(`[data-activity-name="${name}"]`)].  Only the
    script writes that attribute, on the cards it appends to the
    container, so the search runs over the container's children. *)
Definition querySelector_card (name : string) : Js (option Path) :=
  match Css.read_name name with
  | Css.Exact =>
      gets (λ w, Dom.first_in (Dom.has_attr "data-activity-name" name)
                   (activitiesList w))
  | Css.Escaped value =>
      gets (λ w, Dom.first_in (Dom.has_attr "data-activity-name" value)
                   (activitiesList w))
  | Css.Invalid => throw InvalidSelector
  | Css.Uninterpreted => unmodelled
  end.

(** [el.querySelector("." + cls)]: the first descendant of [el] with the
    class, [null] when there is none. *)
Definition querySelector_class (el : Path) (cls : string) : Js (option Path) :=
  node ← gets (λ w, Dom.get_at el (activitiesList w));
  match node with
  | Some n => mret ((λ q, el ++ q) <$> Dom.first_in (Dom.has_class cls) (Dom.children n))
  | None => unmodelled
  end.

(** [el.innerHTML = markup], for an element inside the container *)
Definition innerHTML (el : Path) (markup : string) : Js unit :=
  emit (ParseHTML markup) ;;
  match parse_fragment markup with
  | Some nodes =>
      modify (set_activitiesList (Dom.modify_at el (Dom.with_children (λ _, nodes))))
  | None => unmodelled
  end.

Definition appendChild (el : Path) (child : Node) : Js unit :=
  modify (set_activitiesList (Dom.modify_at el (Dom.appendChild child))).

(** [activitiesList.innerHTML = markup] *)
Definition activitiesList_innerHTML (markup : string) : Js unit :=
  emit (ParseHTML markup) ;;
  match parse_fragment markup with
  | Some nodes => modify (set_activitiesList (λ _, nodes))
  | None => unmodelled
  end.

(** [setTimeout(hide, delay)]: the only callback the script schedules is
    the one that hides the message. *)
Definition setTimeout (delay : nat) : Js unit :=
  modify (λ w, set_timers (λ t, t ++ [clock w + delay]) w).

(** [confirm(message)]; [answer] is what the user chooses. *)
Definition confirm (message : string) (answer : bool) : Js bool :=
  emit (Confirm message) ;; mret answer.

End Browser.

(** ** The script *)

Module App.
Import Monad Browser.

Definition dquote : string := String (ascii_of_nat 34) EmptyString.

(** Lines 8-17. *)
Definition showMessage (text : Value) (type : string) : Js unit :=
  modify (set_messageDiv (Message.textContent (Val.to_text text))) ;;
  modify (set_messageDiv (Message.className type)) ;;
  modify (set_messageDiv (Message.classList_remove "hidden")) ;;
  setTimeout 5000.

(** [details.max_participants - details.participants.length] *)
Definition spotsLeft (details : Activity) : Number.t :=
  Number.sub (Number.of_Z (max_participants details))
    (Number.of_Z (Z.of_nat (length (participants details)))).

Definition spots_text (details : Activity) : string :=
  " " +:+ Number.to_string (spotsLeft details) +:+ " spots left".

(** The body of the [participants.forEach] callback (lines 62-75 and
    140-153): one list item per email, with its removal control. *)
Definition listItem (name email : string) : Node :=
  let listItem := Dom.textContent email (Dom.createElement "li") in
  let deleteBtn := Dom.createElement "button" in
  let deleteBtn := Dom.className "remove-participant-btn" deleteBtn in
  let deleteBtn := Dom.setAttribute "data-activity" name deleteBtn in
  let deleteBtn := Dom.setAttribute "data-email" email deleteBtn in
  let deleteBtn :=
    Dom.setAttribute "aria-label" ("Remove " +:+ email +:+ " from " +:+ name)
      deleteBtn in
  let deleteBtn := Dom.textContent "🗑️" deleteBtn in
  Dom.appendChild deleteBtn listItem.

Definition participantsList (name : string) (emails : list string) : Node :=
  let participantsList := Dom.className "participants-list" (Dom.createElement "ul") in
  foldl (λ ul email, Dom.appendChild (listItem name email) ul) participantsList emails.

Definition noParticipants : Node :=
  let noParticipants := Dom.className "no-participants" (Dom.createElement "p") in
  Dom.textContent "No participants yet. Be the first to sign up!" noParticipants.

Definition participantsLabel : Node :=
  Dom.textContent "Participants:" (Dom.createElement "strong").

Definition availabilityStrong : Node :=
  Dom.textContent "Availability:" (Dom.createElement "strong").

(** The list or the placeholder (lines 58-83 and 136-161). *)
Definition participantsBody (name : string) (details : Activity) : Node :=
  if (0 <? length (participants details))%nat
  then participantsList name (participants details)
  else noParticipants.

(** Lines 102-167: the card of one catalog entry. *)
Definition activityCard (name : string) (details : Activity) : Node :=
  let activityCard := Dom.className "activity-card" (Dom.createElement "div") in
  let activityCard := Dom.setAttribute "data-activity-name" name activityCard in
  let title := Dom.textContent name (Dom.createElement "h4") in
  let description := Dom.textContent (description details) (Dom.createElement "p") in
  let schedule_ := Dom.createElement "p" in
  let scheduleStrong := Dom.textContent "Schedule:" (Dom.createElement "strong") in
  let schedule_ := Dom.appendChild scheduleStrong schedule_ in
  let schedule_ :=
    Dom.appendChild (Dom.createTextNode (" " +:+ schedule details)) schedule_ in
  let availability := Dom.className "availability" (Dom.createElement "p") in
  let availability := Dom.appendChild availabilityStrong availability in
  let availability :=
    Dom.appendChild (Dom.createTextNode (spots_text details)) availability in
  let participantsSection :=
    Dom.className "participants-section" (Dom.createElement "div") in
  let participantsSection := Dom.appendChild participantsLabel participantsSection in
  let participantsSection :=
    Dom.appendChild (participantsBody name details) participantsSection in
  let activityCard := Dom.appendChild title activityCard in
  let activityCard := Dom.appendChild description activityCard in
  let activityCard := Dom.appendChild schedule_ activityCard in
  let activityCard := Dom.appendChild availability activityCard in
  Dom.appendChild participantsSection activityCard.

(** Lines 172-175. *)
Definition option_ (name : string) : Node :=
  let option := Dom.setAttribute "value" name (Dom.createElement "option") in
  Dom.textContent name option.

(** Lines 92-181. *)
Definition fetchActivities : Js unit :=
  try_catch
    (response ← fetch_activities;
     activities ← json response;
     activitiesList_innerHTML "" ;;
     forEach activities (λ '(name, details),
       modify (set_activitiesList (λ l, l ++ [activityCard name details])) ;;
       modify (set_activitySelect (λ l, l ++ [option_ name]))))
    (λ error,
       activitiesList_innerHTML ("<p>" +:+ failure_text +:+ "</p>") ;;
       console_error "Error fetching activities:" (Some error)).

(** Lines 20-89. *)
Definition updateActivityCard (activityName : string) : Js unit :=
  try_catch
    (response ← fetch_activities;
     activities ← json response;
     match get_property activities activityName with
     | Undefined =>
         console_error ("Activity " +:+ activityName +:+ " not found") None
     | property =>
         existingCard ← querySelector_card activityName;
         match existingCard with
         | None => console_error ("Card for " +:+ activityName +:+ " not found") None
         | Some existingCard =>
             (* details.max_participants - details.participants.length *)
             details ← match property with
                        | Own details => mret details
                        | _ => throw UndefinedReference
                        end;
             availabilityParagraph ← querySelector_class existingCard "availability";
             match availabilityParagraph with
             | Some availabilityParagraph =>
                 innerHTML availabilityParagraph "" ;;
                 appendChild availabilityParagraph availabilityStrong ;;
                 appendChild availabilityParagraph
                   (Dom.createTextNode (spots_text details))
             | None => mret ()
             end ;;
             participantsSection ← querySelector_class existingCard "participants-section";
             match participantsSection with
             | None => throw NullReference
             | Some participantsSection =>
                 innerHTML participantsSection "" ;;
                 appendChild participantsSection participantsLabel ;;
                 appendChild participantsSection (participantsBody activityName details)
             end
         end
     end)
    (λ error,
       console_error "Error updating activity card:" (Some error) ;;
       fetchActivities).

(** [signupForm.reset()]: the two controls go back to what the host page
    resets them to, which the page state holds in [formDefaults]. *)
Definition reset : Js unit :=
  emit FormReset ;;
  modify (λ w, set_signupForm (λ _, formDefaults w) w).

(** Lines 184-212: the submit handler of the signup form.  The call
    [updateActivityCard(activity)] is not awaited; nothing follows it in
    the handler, so running it to completion in place gives the same
    final state. *)
Definition onSubmit : Js unit :=
  emit PreventDefault ;;
  email ← gets (λ w, email_value (signupForm w));
  activity ← gets (λ w, activity_value (signupForm w));
  try_catch
    (response ← fetch_action "POST"
                  ("/activities/" +:+ Str.encodeURIComponent activity
                     +:+ "/signup?email=" +:+ Str.encodeURIComponent email);
     result ← json response;
     if ok response then
       showMessage (Val.of_option (message result)) "success" ;;
       reset ;;
       updateActivityCard activity
     else
       showMessage (Val.or (Val.of_option (detail result))
                      (VString "An error occurred")) "error")
    (λ error,
       showMessage (VString "Failed to sign up. Please try again.") "error" ;;
       console_error "Error signing up:" (Some error)).

(** Lines 215-247: the delegated click handler of the container.
    [target] is the element clicked, [answer] the user's reply to the
    confirmation prompt should one be shown.  On success the script
    starts [updateActivityCard] and shows the message while the refresh
    is still waiting for its response; the two write different parts of
    the page, so the order of the embedding reaches the same state. *)
Definition onClick (target : Node) (answer : bool) : Js unit :=
  if Dom.has_class "remove-participant-btn" target then
    let activity := Val.of_option (Dom.getAttribute "data-activity" target) in
    let email := Val.of_option (Dom.getAttribute "data-email" target) in
    let confirmationMessage :=
      "Remove participant " +:+ dquote +:+ Val.to_string email +:+ dquote
        +:+ " from activity " +:+ dquote +:+ Val.to_string activity +:+ dquote
        +:+ "?" in
    confirmed ← confirm confirmationMessage answer;
    if negb confirmed then mret ()
    else
      try_catch
        (response ← fetch_action "DELETE"
                      ("/activities/"
                         +:+ Str.encodeURIComponent (Val.to_string activity)
                         +:+ "/unregister?email="
                         +:+ Str.encodeURIComponent (Val.to_string email));
         result ← json response;
         if ok response then
           updateActivityCard (Val.to_string activity) ;;
           showMessage (Val.of_option (message result)) "success"
         else
           showMessage (Val.or (Val.of_option (detail result))
                          (VString "An error occurred")) "error")
        (λ error,
           showMessage (VString "Failed to remove participant. Please try again.")
             "error" ;;
           console_error "Error removing participant:" (Some error))
  else mret ().

(** The callback of [setTimeout] in [showMessage] (line 15). *)
Definition hide (w : World) : World :=
  set_messageDiv (Message.classList_add "hidden") w.

(** The event loop lets [dt] milliseconds pass: the clock advances and
    every pending callback due by then runs, oldest first. *)
Definition elapse (dt : nat) (w : World) : World :=
  let now := (clock w + dt)%nat in
  let due := filter (λ t, (t ≤ now)%nat) (timers w) in
  let w := set_clock (λ _, now) w in
  let w := set_timers (filter (λ t, (now < t)%nat)) w in
  foldl (λ w _, hide w) w due.

(** The message is shown unless it carries the class [hidden]. *)
Definition visible (w : World) : bool :=
  negb (bool_decide ("hidden" ∈ classes (messageDiv w))).

End App.

(** ** Observations used in the statements *)

Module View.
Import Monad Browser App.

(** The cards and the options one successful load appends, in order. *)
Definition rendered (activities : Catalog) : list Node :=
  (λ entry, activityCard entry.1 entry.2) <$> activities.

Definition options (activities : Catalog) : list Node :=
  option_ <$> keys activities.

(** What one round of the loop of [fetchActivities] does to the page. *)
Definition append_entry (entry : string * Activity) (w : World) : World :=
  set_activitySelect (λ l, l ++ [option_ entry.1])
    (set_activitiesList (λ l, l ++ [activityCard entry.1 entry.2]) w).

(** The children of the container that carry a given activity name. *)
Definition cards_named (name : string) (l : list Node) : list Node :=
  filter (λ c, Dom.getAttribute "data-activity-name" c = Some name) l.

Definition options_valued (name : string) (l : list Node) : list Node :=
  filter (λ o, Dom.getAttribute "value" o = Some name) l.

(** An entry on which the arithmetic of doubles is exact: its capacity,
    the number of its participants and their difference are integers of
    at most [2 ^ 53] in absolute value. *)
Definition exact_arithmetic (details : Activity) : bool :=
  Number.exact (max_participants details)
  && Number.exact (Z.of_nat (length (participants details)))
  && Number.exact (max_participants details
                   - Z.of_nat (length (participants details))).

(** What a card displays in its availability paragraph. *)
Definition availability_text (card : Node) : option string :=
  q ← Dom.first_in (Dom.has_class "availability") (Dom.children card);
  Dom.text_of <$> Dom.get_at q (Dom.children card).

(** The markups handed to the HTML parser, and the requests sent. *)
Definition parsed (t : list Effect) : list string :=
  omap (λ e, match e with ParseHTML m => Some m | _ => None end) t.

Definition requests (t : list Effect) : list (string * string) :=
  omap (λ e, match e with Request m u => Some (m, u) | _ => None end) t.

(** The only markups the script may hand to the parser: the empty string
    and the failure paragraph. *)
Definition constant_markup (markup : string) : Prop :=
  markup = "" ∨ markup = "<p>" +:+ failure_text +:+ "</p>".

Definition harmless (e : Effect) : Prop :=
  match e with ParseHTML markup => constant_markup markup | _ => True end.

(** A computation only appends to the trace, and nothing that parses
    markup other than the two constants. *)
Definition appends_harmless {A} (m : Js A) : Prop :=
  ∀ w, ∃ added, trace (m w).2 = trace w ++ added ∧ Forall harmless added.

(** The text a card shows for a list of participants, and for an entry. *)
Definition participants_text (emails : list string) : string :=
  match emails with
  | [] => "No participants yet. Be the first to sign up!"
  | _ => foldr (λ email rest, email +:+ "🗑️" +:+ rest) "" emails
  end.

Definition card_text (name : string) (details : Activity) : string :=
  name +:+ description details
    +:+ "Schedule: " +:+ schedule details
    +:+ "Availability: " +:+ Number.to_string (spotsLeft details) +:+ " spots left"
    +:+ "Participants:" +:+ participants_text (participants details).

(** The page after a refresh: new cards, more events, the rest of the
    replies; everything else as before. *)
Definition with_page (cards : list Node) (events : list Effect)
    (replies : list (option (Response Catalog))) (w : World) : World :=
  {| activitiesList := cards; activitySelect := activitySelect w;
     messageDiv := messageDiv w; signupForm := signupForm w;
     formDefaults := formDefaults w; trace := trace w ++ events;
     catalogReplies := replies; actionReplies := actionReplies w;
     clock := clock w; timers := timers w |}.

Definition set_children (new : list Node) : Node → Node :=
  Dom.with_children (λ _, new).

(** A card after lines 41-48: the children of its first availability
    element, if it has one, are the label and the new count. *)
Definition patch_availability (details : Activity) (card : Node) : Node :=
  match Dom.first_in (Dom.has_class "availability") (Dom.children card) with
  | Some q =>
      Dom.with_children
        (Dom.modify_at q (set_children [availabilityStrong; Text (spots_text details)]))
        card
  | None => card
  end.

Definition availability_events (card : Node) : list Effect :=
  match Dom.first_in (Dom.has_class "availability") (Dom.children card) with
  | Some _ => [ParseHTML ""]
  | None => []
  end.

(** A card after lines 51-83, when it has a participants section. *)
Definition patch_participants (name : string) (details : Activity) (card : Node)
    : option Node :=
  match Dom.first_in (Dom.has_class "participants-section") (Dom.children card) with
  | Some q =>
      Some (Dom.with_children
              (Dom.modify_at q
                 (set_children [participantsLabel; participantsBody name details]))
              card)
  | None => None
  end.

(** The entry a refreshed card shows: the static fields it was rendered
    with, the capacity and the participants of the fresh entry. *)
Definition refreshed (old new : Activity) : Activity :=
  {| description := description old; schedule := schedule old;
     max_participants := max_participants new; participants := participants new |}.

(** Why the fetch of the catalog fails in a state, if it does. *)
Definition fetch_failure (w : World) : option JsError :=
  match head (catalogReplies w) with
  | Some (Some response) =>
      match body response with Some _ => None | None => Some BodyNotJson end
  | _ => Some FetchFailed
  end.

Definition signup_url (w : World) : string :=
  "/activities/" +:+ Str.encodeURIComponent (activity_value (signupForm w))
    +:+ "/signup?email=" +:+ Str.encodeURIComponent (email_value (signupForm w)).

(** The prompt of line 220 for a clicked element. *)
Definition confirmationMessage (target : Node) : string :=
  "Remove participant " +:+ dquote
    +:+ Val.to_string (Val.of_option (Dom.getAttribute "data-email" target))
    +:+ dquote +:+ " from activity " +:+ dquote
    +:+ Val.to_string (Val.of_option (Dom.getAttribute "data-activity" target))
    +:+ dquote +:+ "?".

End View.

(** ** Sample inputs *)

Module Sample.
Import Monad Browser App View.

Definition chess : Activity :=
  {| description := "Learn strategies and compete in chess tournaments";
     schedule := "Fridays, 3:30 PM - 5:00 PM";
     max_participants := 10;
     participants := ["a@x.com"] |}.

Definition chess_joined : Activity :=
  {| description := "Learn strategies and compete in chess tournaments";
     schedule := "Fridays, 3:30 PM - 5:00 PM";
     max_participants := 10;
     participants := ["a@x.com"; "b@x.com"] |}.

Definition gym : Activity :=
  {| description := "Physical education and sports activities";
     schedule := "Mondays, 2:00 PM - 3:00 PM";
     max_participants := 30;
     participants := [] |}.

Definition catalog : Catalog := [("Chess Club", chess); ("Gym Class", gym)].

(** A capacity beyond the integers that doubles tell apart:
    [2 ^ 53 + 2], with one place taken. *)
Definition vast : Activity :=
  {| description := "Lectures for everybody";
     schedule := "Sundays, 10:00 AM - 11:00 AM";
     max_participants := 9007199254740994;
     participants := ["a@x.com"] |}.

Definition vast_catalog : Catalog := [("Open Lectures", vast)].

Definition catalog_joined : Catalog :=
  [("Chess Club", chess_joined); ("Gym Class", gym)].

Definition ok_catalog (activities : Catalog) : option (Response Catalog) :=
  Some {| ok := true; body := Some activities |}.

(** The page as the host document delivers it: a loading note in the
    container, an empty select, a hidden message. *)
Definition page (catalogs : list (option (Response Catalog)))
    (actions : list (option (Response Result))) : World :=
  {| activitiesList := [Elem "p" [] [] [Text "Loading activities..."]];
     activitySelect := [];
     messageDiv := {| text := ""; classes := ["hidden"] |};
     signupForm := {| email_value := "b@x.com"; activity_value := "Chess Club" |};
     formDefaults := {| email_value := ""; activity_value := "" |};
     trace := [];
     catalogReplies := catalogs;
     actionReplies := actions;
     clock := 0;
     timers := [] |}.

(** The same page with given children in the container. *)
Definition board (cards : list Node) (catalogs : list (option (Response Catalog)))
    : World :=
  set_activitiesList (λ _, cards) (page catalogs []).

(** One load, and two loads, of the same catalog. *)
Definition same_twice : list (option (Response Catalog)) :=
  [ok_catalog catalog; ok_catalog catalog].

Definition loaded_once : World := exec fetchActivities (page same_twice []).

Definition loaded_twice : World :=
  exec (fetchActivities ;; fetchActivities) (page same_twice []).

(** The page after a load, with a fresher catalog still to come. *)
Definition loaded_page : World :=
  exec fetchActivities (page [ok_catalog catalog; ok_catalog catalog_joined] []).

(** A page whose next catalog request does not complete. *)
Definition offline_page : World := page [None; ok_catalog catalog] [].

(** A card without an availability paragraph, and one without a
    participants section. *)
Definition card_without_availability : Node :=
  Elem "div" ["activity-card"] [("data-activity-name", "Chess Club")]
    [Elem "h4" [] [] [Text "Chess Club"];
     Elem "div" ["participants-section"] [] [Text "stale"]].

Definition card_without_participants : Node :=
  Elem "div" ["activity-card"] [("data-activity-name", "Chess Club")]
    [Elem "h4" [] [] [Text "Chess Club"];
     Elem "p" ["availability"] [] [Text "stale"]].

(** An activity whose name contains double quotes.  The session: the
    catalog loads, a signup for the activity is accepted, the refresh that
    follows ends in a reload whose request does not complete.  The
    container then shows the failure paragraph and holds no card, the
    select still offers the activity, and the server is back. *)
Definition quoted_name : string := "Chess " +:+ dquote +:+ "Masters" +:+ dquote.

Definition quoted_catalog : Catalog := [(quoted_name, chess)].

Definition accepted : option (Response Result) :=
  Some {| ok := true;
          body := Some {| message := Some "Signed up"; detail := None |} |}.

Definition quoted_start : World :=
  {| activitiesList := [Elem "p" [] [] [Text "Loading activities..."]];
     activitySelect := [];
     messageDiv := {| text := ""; classes := ["hidden"] |};
     signupForm := {| email_value := "b@x.com"; activity_value := quoted_name |};
     formDefaults := {| email_value := ""; activity_value := "" |};
     trace := [];
     catalogReplies := [ok_catalog quoted_catalog; ok_catalog quoted_catalog; None;
                        ok_catalog quoted_catalog; ok_catalog quoted_catalog];
     actionReplies := [accepted];
     clock := 0;
     timers := [] |}.

Definition failed_page : World := exec (fetchActivities ;; onSubmit) quoted_start.

(** Two activities, the name of the second an escaped spelling of the
    name of the first: inside the selector the backslash makes the space
    that follows it stand for itself.  The page after a load, with the
    server about to list a first participant of the second activity. *)
Definition escaped_name : string := "Chess\ Club".

Definition club : Activity :=
  {| description := "Chess for beginners";
     schedule := "Mondays, 3:30 PM - 4:30 PM";
     max_participants := 5;
     participants := [] |}.

Definition club_joined : Activity :=
  {| description := "Chess for beginners";
     schedule := "Mondays, 3:30 PM - 4:30 PM";
     max_participants := 5;
     participants := ["b@x.com"] |}.

Definition shadow_catalog : Catalog := [("Chess Club", chess); (escaped_name, club)].

Definition shadow_catalog_joined : Catalog :=
  [("Chess Club", chess); (escaped_name, club_joined)].

Definition shadow_page : World :=
  exec fetchActivities (page [ok_catalog shadow_catalog; ok_catalog shadow_catalog_joined] []).

(** A card left over for an activity named like a member of
    [Object.prototype], which the fresh catalog no longer lists. *)
Definition stale_page : World :=
  board (rendered [("constructor", chess)]) same_twice.

(** Rejected signups: with a reason, and with an empty one. *)
Definition rejection (reason : string) : option (Response Result) :=
  Some {| ok := false; body := Some {| message := None; detail := Some reason |} |}.

Definition rejected_page : World := page [] [rejection "Student is already signed up"].

Definition silent_rejection_page : World := page [] [rejection ""].

(** A removal control as [fetchActivities] builds it, without its icon. *)
Definition remove_button : Node :=
  Elem "button" ["remove-participant-btn"]
    [("data-activity", "Chess Club"); ("data-email", "a@x.com");
     ("aria-label", "Remove a@x.com from Chess Club")] [].

(** Two messages, the second shown three seconds after the first. *)
Definition first_shown : World :=
  exec (showMessage (VString "first") "success") (page [] []).

Definition second_shown : World :=
  exec (showMessage (VString "second") "error") (elapse 3000 first_shown).

End Sample.

(** ** Observations for the rest of the script *)

Module Observe.
Import Monad Browser App View.

(** The URL of the unregister request for a clicked element (lines
    226-228); a missing [data-] attribute reads as [undefined]. *)
Definition unregister_url (target : Node) : string :=
  "/activities/"
    +:+ Str.encodeURIComponent
          (Val.to_string (Val.of_option (Dom.getAttribute "data-activity" target)))
    +:+ "/unregister?email="
    +:+ Str.encodeURIComponent
          (Val.to_string (Val.of_option (Dom.getAttribute "data-email" target))).

(** The activity a clicked element names. *)
Definition target_activity (target : Node) : string :=
  Val.to_string (Val.of_option (Dom.getAttribute "data-activity" target)).

(** The address a clicked element names. *)
Definition target_email (target : Node) : string :=
  Val.to_string (Val.of_option (Dom.getAttribute "data-email" target)).

(** The URL of line 227 as a function of the two values. *)
Definition unregister_path (activity email : string) : string :=
  "/activities/" +:+ Str.encodeURIComponent activity
    +:+ "/unregister?email=" +:+ Str.encodeURIComponent email.

(** The parts of the page that rendering never writes: the message, the
    address typed into the form, the timers and the clock, and what the
    server is going to answer to signups and removals. *)
Definition beside_the_board (w : World)
    : MessageDiv * string * list (option (Response Result)) * nat * list nat :=
  (messageDiv w, email_value (signupForm w), actionReplies w, clock w, timers w).

(** A computation leaves an observation of the page as it was. *)
Definition keeps {A B} (observe : World → B) (m : Js A) : Prop :=
  ∀ w, observe (m w).2 = observe w.

(** A computation only appends to the trace, and only effects in [P]. *)
Definition appends_only (P : Effect → Prop) {A} (m : Js A) : Prop :=
  ∀ w, ∃ added, trace (m w).2 = trace w ++ added ∧ Forall P added.

(** Effects other than requests, and requests for the catalog. *)
Definition reads_catalog_only (e : Effect) : Prop :=
  match e with
  | Request method url => method = "GET" ∧ url = "/activities"
  | _ => True
  end.

(** The names and the option values on show, in document order. *)
Definition card_names (l : list Node) : list string :=
  omap (Dom.getAttribute "data-activity-name") l.

Definition option_values (l : list Node) : list string :=
  omap (Dom.getAttribute "value") l.

(** The removal control of a list item: its last child. *)
Definition removal_control (item : Node) : option Node := last (Dom.children item).

(** The list items of a card's participants list. *)
Definition participant_items (card : Node) : list Node :=
  match Dom.first_in (Dom.has_class "participants-list") (Dom.children card) with
  | Some q =>
      match Dom.get_at q (Dom.children card) with
      | Some ul => Dom.children ul
      | None => []
      end
  | None => []
  end.

(** Why a signup or removal request fails in a state, if it does: the
    request does not complete, or its body is not JSON. *)
Definition action_failure (w : World) : option JsError :=
  match head (actionReplies w) with
  | Some (Some response) =>
      match body response with Some _ => None | None => Some BodyNotJson end
  | _ => Some FetchFailed
  end.

(** What the handlers show for a rejected request: the detail, or the
    generic text when there is none or it is empty. *)
Definition rejection_text (detail : option string) : string :=
  match detail with
  | Some reason => if bool_decide (reason = "") then "An error occurred" else reason
  | None => "An error occurred"
  end.

(** The outcome of a refresh that settles: it completes normally, after
    one request for the catalog or two. *)
Definition settled (w : World) (result : Completion () * World) : Prop :=
  result.1 = Normal () ∧
  (requests (trace result.2) = requests (trace w) ++ [("GET", "/activities")]
   ∨ requests (trace result.2)
     = requests (trace w) ++ [("GET", "/activities"); ("GET", "/activities")]).

Definition catalog_request : string * string := ("GET", "/activities").

End Observe.

(** ** More sample inputs *)

Module Sample2.
Import Monad Browser App View Observe.

Definition chess_left : Activity :=
  {| description := "Learn strategies and compete in chess tournaments";
     schedule := "Fridays, 3:30 PM - 5:00 PM";
     max_participants := 10;
     participants := [] |}.

Definition catalog_left : Catalog :=
  [("Chess Club", chess_left); ("Gym Class", Sample.gym)].

Definition removed : option (Response Result) :=
  Some {| ok := true;
          body := Some {| message := Some "Unregistered a@x.com from Chess Club";
                          detail := None |} |}.

Definition bare_rejection : option (Response Result) :=
  Some {| ok := false; body := Some {| message := None; detail := None |} |}.

(** The loaded page of [Sample], with the server about to accept a signup
    and to list the new participant. *)
Definition signup_page : World :=
  set_actionReplies (λ _, [Sample.accepted]) Sample.loaded_page.

(** The loaded page, with the server about to accept a removal and to list
    the activity without participants. *)
Definition removal_page : World :=
  set_actionReplies (λ _, [removed])
    (exec fetchActivities
       (Sample.page [Sample.ok_catalog Sample.catalog;
                     Sample.ok_catalog catalog_left] [])).

(** The loaded page, with the server about to reject a request. *)
Definition rejecting_page : World :=
  set_actionReplies (λ _, [Sample.rejection "Student is not signed up"])
    Sample.loaded_once.

(** A page whose server is unreachable. *)
Definition unreachable_page : World := Sample.page [] [None].

Definition bare_rejection_page : World := Sample.page [] [bare_rejection].

End Sample2.

(** * Proofs *)

Import Monad Browser App View.

(** Unfold the setters of [World], and the operations of the monad and of
    the browser, so that a run on a page given field by field computes. *)
Ltac setters :=
  cbv [set_activitiesList set_activitySelect set_messageDiv set_signupForm
       set_trace set_catalogReplies set_actionReplies set_clock set_timers
       activitiesList activitySelect messageDiv signupForm formDefaults trace
       catalogReplies actionReplies clock timers];
  simpl.

Ltac js_run :=
  cbv [mbind Js_bind mret Js_ret Monad.emit Monad.gets Monad.modify Monad.throw
       Monad.unmodelled Monad.try_catch Monad.exec Monad.completion
       Browser.fetch_activities Browser.fetch_action Browser.json
       Browser.console_error Browser.activitiesList_innerHTML Browser.innerHTML
       Browser.appendChild Browser.setTimeout Browser.confirm
       Browser.querySelector_card Browser.querySelector_class];
  simpl.

(** ** The DOM search *)

Module DomFacts.
Import Dom.

Lemma first_match_elem p tag cl at_ ch :
  first_match p (Elem tag cl at_ ch)
  = if p (Elem tag cl at_ ch) then Some [] else first_in p ch.
Proof.
  unfold first_in. simpl. destruct (p _); [done|].
  generalize 0%nat. induction ch as [|x r IH]; intros i; simpl; [done|].
  by destruct (first_match p x).
Qed.

Lemma first_match_text p data :
  first_match p (Text data) = if p (Text data) then Some [] else None.
Proof. done. Qed.

Lemma first_from_none p i l :
  first_from p i l = None ↔ Forall (λ x, first_match p x = None) l.
Proof.
  revert i. induction l as [|x r IH]; intros i; simpl.
  - split; [constructor|done].
  - destruct (first_match p x) eqn:E.
    + split; [done|]. intros H. inversion H; congruence.
    + rewrite IH. split; [by constructor|]. by intros H; inversion H.
Qed.

Lemma first_from_app_none p i l1 l2 :
  first_from p i l1 = None →
  first_from p i (l1 ++ l2) = first_from p (i + length l1) l2.
Proof.
  revert i. induction l1 as [|x r IH]; intros i; simpl.
  - intros _. f_equal. lia.
  - destruct (first_match p x); [done|]. intros H. rewrite IH by done.
    f_equal. lia.
Qed.

(** The first match is the head of the second part when nothing before it
    matches. *)
Lemma first_in_middle p l1 x l2 :
  first_in p l1 = None → p x = true →
  first_in p (l1 ++ x :: l2) = Some [length l1].
Proof.
  unfold first_in. intros H Hx. rewrite first_from_app_none by done. simpl.
  destruct x; simpl; by rewrite Hx.
Qed.

Lemma string_app_nil_r (s : string) : s +:+ "" = s.
Proof.
  induction s as [|c s IH]; [done|].
  unfold String.append; fold String.append. by rewrite IH.
Qed.

End DomFacts.

(** ** Numbers *)

Module NumberFacts.

Lemma round_pos_exact (n : Z) : (0 ≤ n ≤ 2 ^ 53)%Z → Number.round_pos n = n.
Proof.
  intros Hn. unfold Number.round_pos.
  destruct (Z.leb_spec (Z.log2 n - 52) 0) as [|He]; [done|].
  assert (n = 2 ^ 53)%Z as ->; [|reflexivity].
  assert (0 < n)%Z by (destruct n; [done|lia|lia]).
  assert (2 ^ 53 ≤ n)%Z by (apply Z.log2_le_pow2; lia).
  lia.
Qed.

Lemma of_Z_exact (z : Z) : Number.exact z = true → Number.of_Z z = Number.Finite z.
Proof.
  unfold Number.exact, Number.of_Z. intros Hz%Z.leb_le.
  rewrite round_pos_exact by lia.
  assert (2 ^ 53 < 2 ^ 1024)%Z by (by apply Z.pow_lt_mono_r).
  destruct (Z.leb_spec (2 ^ 1024) (Z.abs z)); [lia|].
  f_equal. destruct z; simpl; lia.
Qed.

(** Inside the range the script shows the integer difference. *)
Lemma to_string_spotsLeft (details : Activity) :
  exact_arithmetic details = true →
  Number.to_string (spotsLeft details)
  = pretty (max_participants details - Z.of_nat (length (participants details)))%Z.
Proof.
  unfold exact_arithmetic, spotsLeft.
  intros [[Hmax Hlen]%andb_true_iff Hdiff]%andb_true_iff.
  rewrite (of_Z_exact _ Hmax), (of_Z_exact _ Hlen). cbn [Number.sub].
  rewrite (of_Z_exact _ Hdiff). cbn [Number.to_string].
  unfold Number.exact in Hdiff. by rewrite Hdiff.
Qed.

End NumberFacts.

(** ** The selector *)

Module CssFacts.

(** The selector compares the attribute with the name itself exactly when
    the name has no special character. *)
Lemma scan_plain (name : string) :
  Css.plain name = true → Css.scan Css.Chars name = Css.Value name.
Proof.
  induction name as [|c r IH]; [done|].
  cbn [Css.scan Css.plain]. unfold Css.special.
  intros [Hc Hr]%andb_true_iff. apply negb_true_iff in Hc.
  repeat (apply orb_false_iff in Hc as [Hc ?]).
  repeat match goal with H : (_ =? _)%nat = false |- _ => rewrite H; clear H end.
  simpl. by rewrite (IH Hr).
Qed.

Lemma read_name_plain (name : string) :
  Css.read_name name = Css.Exact ↔ Css.plain name = true.
Proof.
  unfold Css.read_name. split.
  - destruct (Css.scan Css.Chars name); [|done..].
    by destruct (Css.plain name).
  - intros H. by rewrite (scan_plain name H), H.
Qed.

End CssFacts.

(** ** Running the monad *)

Module MonadFacts.
Import Monad.

Lemma bind_run {A B} (m : Js A) (k : A → Js B) (w : World) :
  (m ≫= k) w
  = match m w with
    | (Normal a, w') => k a w'
    | (Throw e, w') => (Throw e, w')
    | (Unmodelled, w') => (Unmodelled, w')
    end.
Proof. done. Qed.

Lemma forEach_normal {A} (f : A → Js unit) (g : A → World → World) :
  (∀ x w, f x w = (Normal (), g x w)) →
  ∀ l w, forEach l f w = (Normal (), foldl (λ w x, g x w) w l).
Proof.
  intros Hf l. induction l as [|x r IH]; intros w; [done|].
  cbn [forEach foldl]. rewrite bind_run, Hf. apply IH.
Qed.

End MonadFacts.

Import MonadFacts.

(** ** The full load *)

Module LoadFacts.
Import Monad Browser App View MonadFacts.

Arguments activityCard : simpl never.
Arguments option_ : simpl never.

Lemma foldl_append_entry (activities : Catalog) (w : World) :
  foldl (λ w entry, append_entry entry w) w activities
  = set_activitySelect (λ l, l ++ options activities)
      (set_activitiesList (λ l, l ++ rendered activities) w).
Proof.
  revert w. induction activities as [|[name details] rest IH]; intros w.
  - destruct w; unfold set_activitySelect, set_activitiesList; simpl.
    by rewrite !app_nil_r.
  - cbn [foldl]. rewrite IH. destruct w.
    unfold append_entry, set_activitySelect, set_activitiesList, options, rendered.
    simpl. by rewrite <- !app_assoc.
Qed.

(** A load whose response parses replaces the cards and appends the
    options. *)
Lemma fetchActivities_loaded (activities : Catalog) response_ok rest (w : World) :
  catalogReplies w = Some {| ok := response_ok; body := Some activities |} :: rest →
  fetchActivities w
  = (Normal (),
     {| activitiesList := rendered activities;
        activitySelect := activitySelect w ++ options activities;
        messageDiv := messageDiv w; signupForm := signupForm w;
        formDefaults := formDefaults w;
        trace := trace w ++ [Request "GET" "/activities"; ParseHTML ""];
        catalogReplies := rest; actionReplies := actionReplies w;
        clock := clock w; timers := timers w |}).
Proof.
  intros Hreply. destruct w; simpl in Hreply; subst. unfold fetchActivities.
  cbv [mbind Js_bind mret Js_ret emit gets modify throw unmodelled try_catch
       fetch_activities json activitiesList_innerHTML console_error].
  simpl.
  rewrite (forEach_normal _ append_entry) by (by intros [??] ?).
  rewrite foldl_append_entry. setters. by rewrite <- app_assoc.
Qed.

(** A load whose request fails, or whose body is not JSON, shows the
    failure paragraph and leaves the select alone. *)
Lemma fetchActivities_failed (w : World) :
  match head (catalogReplies w) with
  | Some (Some response) => body response = None
  | _ => True
  end →
  ∃ error,
    fetchActivities w
    = (Normal (),
       {| activitiesList := [Elem "p" [] [] [Text failure_text]];
          activitySelect := activitySelect w;
          messageDiv := messageDiv w; signupForm := signupForm w;
          formDefaults := formDefaults w;
          trace := trace w ++ [Request "GET" "/activities";
                               ParseHTML ("<p>" +:+ failure_text +:+ "</p>");
                               ConsoleError "Error fetching activities:" (Some error)];
          catalogReplies := tail (catalogReplies w);
          actionReplies := actionReplies w;
          clock := clock w; timers := timers w |}).
Proof.
  destruct w as [al sel md form fd tr cr ar ck tm]; simpl.
  unfold fetchActivities.
  cbv [mbind Js_bind mret Js_ret emit gets modify throw unmodelled try_catch
       fetch_activities json activitiesList_innerHTML console_error].
  destruct cr as [|[[response_ok [activities|]]|] rest]; simpl; try done; intros _.
  all: eexists; setters; rewrite <- !app_assoc; reflexivity.
Qed.

Lemma card_name name details :
  Dom.getAttribute "data-activity-name" (activityCard name details) = Some name.
Proof. done. Qed.

Lemma option_value name : Dom.getAttribute "value" (option_ name) = Some name.
Proof. done. Qed.

Lemma cards_named_rendered (activities : Catalog) name details :
  NoDup (keys activities) → (name, details) ∈ activities →
  cards_named name (rendered activities) = [activityCard name details].
Proof.
  unfold cards_named, rendered, keys.
  induction activities as [|[k d] rest IH]; intros Hnd Hin.
  - by apply elem_of_nil in Hin.
  - apply NoDup_cons in Hnd as [Hk Hnd]. simpl in *.
    rewrite filter_cons, card_name. apply elem_of_cons in Hin as [Heq|Hin].
    + injection Heq as -> ->. rewrite decide_True by done. f_equal.
      destruct (filter _ _) as [|c l] eqn:E; [done|]. exfalso.
      assert (Hc : c ∈ filter (λ c, Dom.getAttribute "data-activity-name" c = Some k)
                     ((λ entry, activityCard entry.1 entry.2) <$> rest))
        by (rewrite E; left).
      apply list_elem_of_filter in Hc as [Hc1 Hc2].
      apply list_elem_of_fmap in Hc2 as ([k' d'] & -> & Hin).
      rewrite card_name in Hc1. injection Hc1 as ->.
      apply Hk, list_elem_of_fmap. by exists (k, d').
    + assert (k ≠ name).
      { intros ->. apply Hk, list_elem_of_fmap. by exists (name, details). }
      rewrite decide_False by congruence. by apply IH.
Qed.
Lemma options_valued_options (activities : Catalog) name :
  NoDup (keys activities) → name ∈ keys activities →
  options_valued name (options activities) = [option_ name].
Proof.
  unfold options_valued, options. generalize (keys activities) as ks.
  induction ks as [|k ks IH]; intros Hnd Hin.
  - by apply elem_of_nil in Hin.
  - apply NoDup_cons in Hnd as [Hk Hnd]. rewrite fmap_cons, filter_cons, option_value.
    apply elem_of_cons in Hin as [->|Hin].
    + rewrite decide_True by done. f_equal.
      destruct (filter _ _) as [|o l] eqn:E; [done|]. exfalso.
      assert (Ho : o ∈ filter (λ o, Dom.getAttribute "value" o = Some k) (option_ <$> ks))
        by (rewrite E; left).
      apply list_elem_of_filter in Ho as [Ho1 Ho2].
      apply list_elem_of_fmap in Ho2 as (k' & -> & Hin).
      rewrite option_value in Ho1. by injection Ho1 as ->.
    + rewrite decide_False by (intros [= ->]; done). by apply IH.
Qed.

Lemma first_match_textContent cls tag value :
  Dom.first_match (Dom.has_class cls) (Dom.textContent value (Dom.createElement tag)) = None.
Proof.
  unfold Dom.textContent. simpl. by destruct (bool_decide (value = "")).
Qed.

Lemma availability_text_card name details :
  availability_text (activityCard name details)
  = Some ("Availability: " +:+ Number.to_string (spotsLeft details)
            +:+ " spots left").
Proof.
  unfold availability_text, activityCard, Dom.first_in.
  cbn [Dom.children Dom.appendChild Dom.with_children Dom.className
       Dom.setAttribute Dom.createElement app Dom.first_from].
  rewrite !first_match_textContent. simpl.
  by rewrite !DomFacts.string_app_nil_r.
Qed.

Lemma length_rendered activities : length (rendered activities) = length (keys activities).
Proof. unfold rendered, keys. by rewrite !length_fmap. Qed.

Lemma length_options activities : length (options activities) = length (keys activities).
Proof. unfold options. by rewrite length_fmap. Qed.

End LoadFacts.

(** ** The message area *)

Module MessageFacts.
Import MonadFacts.

Lemma showMessage_run (value : Value) (type : string) (w : World) :
  showMessage value type w
  = (Normal (),
     set_timers (λ t, t ++ [clock w + 5000])
       (set_messageDiv
          (λ _, {| text := Val.to_text value;
                   classes := filter (λ c, c ≠ "hidden") (Str.tokens type) |}) w)).
Proof. by destruct w. Qed.

Lemma not_hidden_filter (l : list string) :
  bool_decide ("hidden" ∈ filter (λ c, c ≠ "hidden") l) = false.
Proof.
  apply bool_decide_eq_false. rewrite list_elem_of_filter. by intros [? _].
Qed.

Lemma visible_hide w : visible (hide w) = false.
Proof.
  unfold visible, hide. destruct w as [? ? [t cl] ? ? ? ? ? ? ?]. simpl.
  case_bool_decide as H; simpl; [done|]. exfalso. apply H.
  case_bool_decide; [done|]. apply elem_of_app. right. left.
Qed.

Lemma visible_foldl_hide {A} (due : list A) w :
  visible (foldl (λ w _, hide w) w due)
  = if due is [] then visible w else false.
Proof.
  revert w. induction due as [|x r IH]; intros w; [done|].
  cbn [foldl]. rewrite IH. destruct r; [apply visible_hide|done].
Qed.

Lemma filter_due_nil (now : nat) (l : list nat) :
  filter (λ t, (t ≤ now)%nat) l = [] ↔ ∀ due, due ∈ l → (now < due)%nat.
Proof.
  induction l as [|x r IH].
  - split; [|done]. intros _ due H. by apply elem_of_nil in H.
  - rewrite filter_cons. case_decide as Hx.
    + split; [done|]. intros H. specialize (H x (list_elem_of_here _ _)). lia.
    + rewrite IH. split.
      * intros H due [->|Hin]%elem_of_cons; [lia|by apply H].
      * intros H due Hin. apply H. by right.
Qed.

End MessageFacts.

(** ** Patching a card in place *)

Module PatchFacts.
Import Dom DomFacts.

Lemma first_from_cons p i l q :
  first_from p i l = Some q → ∃ j q', q = j :: q'.
Proof.
  revert i. induction l as [|x r IH]; intros i; simpl; [done|].
  destruct (first_match p x); [intros [= <-]; eauto|apply IH].
Qed.

Lemma get_at_middle (l1 l2 : list Node) x :
  get_at [length l1] (l1 ++ x :: l2) = Some x.
Proof. simpl. by rewrite list_lookup_middle. Qed.

Lemma alter_middle {A} (f : A → A) (l1 l2 : list A) x :
  alter f (length l1) (l1 ++ x :: l2) = l1 ++ f x :: l2.
Proof.
  rewrite <- (Nat.add_0_r (length l1)). by rewrite alter_app_r.
Qed.

Lemma modify_at_middle f (l1 l2 : list Node) x j q :
  modify_at (length l1 :: j :: q) f (l1 ++ x :: l2)
  = l1 ++ with_children (modify_at (j :: q) f) x :: l2.
Proof. cbn [modify_at]. apply alter_middle. Qed.

Lemma modify_at_compose q f g (l : list Node) :
  modify_at q f (modify_at q g l) = modify_at q (f ∘ g) l.
Proof.
  revert l. induction q as [|i q IH]; intros l; [done|].
  cbn [modify_at]. destruct q as [|j q].
  - by rewrite list_alter_alter_eq.
  - rewrite list_alter_alter_eq. apply list_alter_ext; [|done].
    intros [data|tag cl at_ ch] _; [done|].
    unfold compose at 1, with_children. f_equal. apply IH.
Qed.

Lemma modify_at_ext q f g (l : list Node) :
  (∀ n, f n = g n) → modify_at q f l = modify_at q g l.
Proof.
  intros Hfg. revert l. induction q as [|i q IH]; intros l; [done|].
  cbn [modify_at]. destruct q as [|j q].
  - by apply list_alter_ext.
  - apply list_alter_ext; [|done].
    intros [data|tag cl at_ ch] _; [done|].
    unfold with_children. f_equal. apply IH.
Qed.

End PatchFacts.

Module RefreshFacts.
Import Dom DomFacts PatchFacts.

#[local] Arguments Dom.get_at : simpl never.
#[local] Arguments Dom.modify_at : simpl never.
#[local] Arguments Dom.first_in : simpl never.
#[local] Arguments participantsBody : simpl never.
#[local] Arguments spots_text : simpl never.
#[local] Arguments availabilityStrong : simpl never.
#[local] Arguments participantsLabel : simpl never.

Lemma get_property_own activities name details :
  own_property activities name = Some details →
  get_property activities name = Own details.
Proof. unfold get_property. by intros ->. Qed.

Lemma updateActivityCard_found
    (activityName : string) (activities : Catalog) (details : Activity)
    (response_ok : bool) (rest : list (option (Response Catalog)))
    (before after : list Node) (card : Node) (w : World) :
  catalogReplies w = Some {| ok := response_ok; body := Some activities |} :: rest →
  own_property activities activityName = Some details →
  Css.read_name activityName = Css.Exact →
  activitiesList w = before ++ card :: after →
  first_in (has_attr "data-activity-name" activityName) before = None →
  has_attr "data-activity-name" activityName card = true →
  updateActivityCard activityName w
  = let card1 := patch_availability details card in
    let events := Request "GET" "/activities" :: availability_events card in
    match patch_participants activityName details card1 with
    | Some card2 =>
        (Normal (),
         with_page (before ++ card2 :: after) (events ++ [ParseHTML ""]) rest w)
    | None =>
        fetchActivities
          (with_page (before ++ card1 :: after)
             (events ++ [ConsoleError "Error updating activity card:"
                           (Some NullReference)]) rest w)
    end.
Proof.
  intros Hreply Hown Hname Hlist Hbefore Hcard.
  destruct w as [al sel md form fd tr cr ar ck tm]. simpl in Hreply, Hlist. subst.
  unfold updateActivityCard. js_run.
  rewrite (get_property_own _ _ _ Hown), Hname. simpl.
  rewrite (first_in_middle _ _ _ _ Hbefore Hcard). simpl.
  rewrite get_at_middle. unfold patch_availability, availability_events.
  destruct (first_in (has_class "availability") (children card)) as [qa|] eqn:Ea;
    simpl.
  - destruct (first_from_cons _ _ _ _ Ea) as (j & q' & ->).
    setters. rewrite !modify_at_compose.
    rewrite (modify_at_ext _ _
               (set_children [availabilityStrong; Text (spots_text details)]))
      by (by intros [|]).
    rewrite modify_at_middle, get_at_middle. unfold patch_participants.
    destruct (first_in (has_class "participants-section") _) as [qp|] eqn:Ep; simpl.
    + destruct (first_from_cons _ _ _ _ Ep) as (j' & q'' & ->).
      setters. rewrite !modify_at_compose.
      rewrite (modify_at_ext _ _
                 (set_children [participantsLabel; participantsBody activityName details]))
        by (by intros [|]).
      rewrite modify_at_middle. unfold with_page. simpl.
      by rewrite <- !app_assoc.
    + unfold with_page. setters. by rewrite <- !app_assoc.
  - setters. rewrite get_at_middle. unfold patch_participants.
    destruct (first_in (has_class "participants-section") _) as [qp|] eqn:Ep; simpl.
    + destruct (first_from_cons _ _ _ _ Ep) as (j' & q'' & ->).
      setters. rewrite !modify_at_compose.
      rewrite (modify_at_ext _ _
                 (set_children [participantsLabel; participantsBody activityName details]))
        by (by intros [|]).
      rewrite modify_at_middle. unfold with_page. simpl.
      by rewrite <- !app_assoc.
    + unfold with_page. setters. by rewrite <- !app_assoc.
Qed.

Lemma first_match_has_class_none cls n :
  first_match (has_class cls) n = None
  ↔ has_class cls n = false ∧ first_in (has_class cls) (children n) = None.
Proof.
  destruct n as [data|tag cl at_ ch].
  - rewrite first_match_text. simpl. split; [by intros _|done].
  - rewrite first_match_elem. simpl. destruct (has_class cls _).
    + split; [done|]. by intros [? _].
    + split; [done|]. by intros [_ ?].
Qed.

(** Replacing the children of a node by nodes without the class cannot
    create a match. *)
Lemma first_in_set_children_none cls new q (l : list Node) :
  first_in (has_class cls) l = None →
  first_in (has_class cls) new = None →
  first_in (has_class cls) (modify_at q (set_children new) l) = None.
Proof.
  intros Hl Hnew. revert l Hl. induction q as [|i q IH]; intros l Hl; [done|].
  unfold first_in in *. apply first_from_none. apply first_from_none in Hl.
  cbn [modify_at]. destruct q as [|j q].
  - apply Forall_alter; [done|]. intros x _ Hx.
    apply first_match_has_class_none in Hx as [Hx1 Hx2].
    apply first_match_has_class_none. destruct x; [done|]. by split.
  - apply Forall_alter; [done|]. intros x _ Hx.
    apply first_match_has_class_none in Hx as [Hx1 Hx2].
    apply first_match_has_class_none. destruct x as [|tag cl at_ ch]; [done|].
    split; [done|]. simpl. by apply IH.
Qed.

Lemma patch_availability_keeps_missing details card :
  first_in (has_class "participants-section") (children card) = None →
  first_in (has_class "participants-section")
    (children (patch_availability details card)) = None.
Proof.
  intros H. unfold patch_availability.
  destruct (first_in (has_class "availability") _) as [q|]; [|done].
  destruct card as [|tag cl at_ ch]; [done|]. simpl.
  by apply first_in_set_children_none.
Qed.

End RefreshFacts.

Module CardFacts.
Import Dom DomFacts PatchFacts LoadFacts.

Lemma availability_path name details :
  first_in (has_class "availability") (children (activityCard name details))
  = Some [3%nat].
Proof.
  unfold activityCard, first_in.
  cbn [children Dom.appendChild with_children className setAttribute
       createElement app first_from].
  by rewrite !first_match_textContent.
Qed.

Lemma refresh_card name old new :
  patch_participants name new (patch_availability new (activityCard name old))
  = Some (activityCard name (refreshed old new)).
Proof.
  unfold patch_availability. rewrite availability_path.
  unfold patch_participants.
  assert (first_in (has_class "participants-section")
            (children (with_children
               (modify_at [3%nat]
                  (set_children [availabilityStrong; Text (spots_text new)]))
               (activityCard name old))) = Some [4%nat]) as ->.
  { unfold activityCard, first_in.
    cbn [children Dom.appendChild with_children className setAttribute
         createElement app first_from modify_at alter list_alter].
    by rewrite !first_match_textContent. }
  reflexivity.
Qed.

Lemma has_attr_card name details :
  has_attr "data-activity-name" name (activityCard name details) = true.
Proof. unfold has_attr. rewrite card_name. by apply bool_decide_eq_true_2. Qed.

End CardFacts.

(** ** What reaches the HTML parser, and what a card reads *)

Module TraceFacts.

Lemma ah_ret {A} (a : A) : appends_harmless (mret a).
Proof. intros w. exists []. by rewrite app_nil_r. Qed.

Lemma ah_throw {A} e : appends_harmless (@throw A e).
Proof. intros w. exists []. by rewrite app_nil_r. Qed.

Lemma ah_unmodelled {A} : appends_harmless (@unmodelled A).
Proof. intros w. exists []. by rewrite app_nil_r. Qed.

Lemma ah_gets {A} (f : World → A) : appends_harmless (gets f).
Proof. intros w. exists []. by rewrite app_nil_r. Qed.

Lemma ah_modify (f : World → World) :
  (∀ w, trace (f w) = trace w) → appends_harmless (modify f).
Proof. intros Hf w. exists []. simpl. by rewrite Hf, app_nil_r. Qed.

Lemma ah_emit e : harmless e → appends_harmless (emit e).
Proof. intros He w. exists [e]. split; [by destruct w|by constructor]. Qed.

Lemma ah_bind {A B} (m : Js A) (k : A → Js B) :
  appends_harmless m → (∀ a, appends_harmless (k a)) → appends_harmless (m ≫= k).
Proof.
  intros Hm Hk w. rewrite bind_run. destruct (Hm w) as (t1 & E1 & H1).
  destruct (m w) as [[a|e|] w1]; simpl in *; try by exists t1.
  destruct (Hk a w1) as (t2 & E2 & H2). exists (t1 ++ t2).
  rewrite E2, E1, app_assoc. split; [done|]. by apply Forall_app.
Qed.

Lemma ah_try_catch {A} (m : Js A) (h : JsError → Js A) :
  appends_harmless m → (∀ e, appends_harmless (h e)) →
  appends_harmless (try_catch m h).
Proof.
  intros Hm Hh w. unfold try_catch. destruct (Hm w) as (t1 & E1 & H1).
  destruct (m w) as [[a|e|] w1]; simpl in *; try by exists t1.
  destruct (Hh e w1) as (t2 & E2 & H2). exists (t1 ++ t2).
  rewrite E2, E1, app_assoc. split; [done|]. by apply Forall_app.
Qed.

Lemma ah_forEach {A} (l : list A) (f : A → Js unit) :
  (∀ x, appends_harmless (f x)) → appends_harmless (forEach l f).
Proof.
  intros Hf. induction l as [|x r IH]; [apply ah_ret|].
  cbn [forEach]. apply ah_bind; [apply Hf|by intros _].
Qed.

Ltac harmless_step :=
  first
    [ apply ah_ret | apply ah_throw | apply ah_unmodelled | apply ah_gets
    | apply ah_modify; intros []; reflexivity
    | apply ah_emit; simpl; unfold constant_markup; by auto
    | apply ah_bind; [|intros ?]
    | apply ah_try_catch; [|intros ?]
    | apply ah_forEach; intros [??]
    | match goal with
      | |- appends_harmless (match ?x with _ => _ end) => destruct x
      end ].

Lemma ah_fetch_activities : appends_harmless fetch_activities.
Proof. unfold fetch_activities. repeat harmless_step. Qed.

Lemma ah_json {A} (r : Response A) : appends_harmless (json r).
Proof. unfold json. repeat harmless_step. Qed.

Lemma ah_fetchActivities : appends_harmless fetchActivities.
Proof.
  unfold fetchActivities, activitiesList_innerHTML, console_error.
  repeat first [apply ah_fetch_activities | apply ah_json | harmless_step].
Qed.

Lemma ah_updateActivityCard name : appends_harmless (updateActivityCard name).
Proof.
  unfold updateActivityCard, console_error, querySelector_card, querySelector_class,
    innerHTML, appendChild.
  repeat first [apply ah_fetch_activities | apply ah_json | apply ah_fetchActivities
               | harmless_step].
Qed.

Lemma parsed_app t1 t2 : parsed (t1 ++ t2) = parsed t1 ++ parsed t2.
Proof. unfold parsed. apply omap_app. Qed.

Lemma parsed_harmless added m :
  Forall harmless added → m ∈ parsed added → constant_markup m.
Proof.
  intros Hall Hin. unfold parsed in Hin. apply list_elem_of_omap in Hin as (e & He & Hm).
  rewrite Forall_forall in Hall. specialize (Hall e He).
  destruct e; try discriminate. by injection Hm as ->.
Qed.

Lemma parsed_after {A} (m : Js A) w markup :
  appends_harmless m →
  markup ∈ parsed (trace (exec m w)) →
  markup ∈ parsed (trace w) ∨ constant_markup markup.
Proof.
  intros Hm. unfold exec. destruct (Hm w) as (added & -> & Hall).
  rewrite parsed_app, elem_of_app. intros [?|?]; [by left|right].
  by eapply parsed_harmless.
Qed.

End TraceFacts.

Module TextFacts.
Import Dom DomFacts.

Lemma string_app_assoc (a b c : string) : (a +:+ b) +:+ c = a +:+ (b +:+ c).
Proof.
  induction a as [|x a IH]; [done|].
  unfold String.append; fold String.append. by rewrite IH.
Qed.

Lemma text_of_elem tag cl at_ ch :
  text_of (Elem tag cl at_ ch) = foldr (λ x rest, text_of x +:+ rest) "" ch.
Proof. simpl. induction ch as [|x r IH]; [done|]. simpl. by rewrite IH. Qed.

Lemma text_of_textContent value tag cl at_ ch :
  text_of (Dom.textContent value (Elem tag cl at_ ch)) = value.
Proof.
  unfold Dom.textContent, with_children. rewrite text_of_elem.
  case_bool_decide as H; [by subst|]. simpl. apply string_app_nil_r.
Qed.

Lemma participantsList_children name emails tag cl at_ init :
  foldl (λ ul email, Dom.appendChild (listItem name email) ul)
    (Elem tag cl at_ init) emails
  = Elem tag cl at_ (init ++ (listItem name <$> emails)).
Proof.
  revert init. induction emails as [|email rest IH]; intros init; simpl.
  - by rewrite app_nil_r.
  - rewrite IH. by rewrite <- app_assoc.
Qed.

Lemma text_of_listItem name email : text_of (listItem name email) = email +:+ "🗑️".
Proof.
  unfold listItem, Dom.textContent, createElement. simpl.
  case_bool_decide as H; simpl; [by subst|]. reflexivity.
Qed.

Lemma text_of_participantsList name emails :
  text_of (participantsList name emails)
  = foldr (λ email rest, email +:+ "🗑️" +:+ rest) "" emails.
Proof.
  unfold participantsList, className, createElement.
  rewrite participantsList_children, text_of_elem. simpl.
  induction emails as [|email rest IH]; [done|].
  cbn [fmap list_fmap foldr]. rewrite IH, text_of_listItem.
  by rewrite string_app_assoc.
Qed.

Lemma text_of_participantsBody name details :
  text_of (participantsBody name details) = participants_text (participants details).
Proof.
  unfold participantsBody, participants_text.
  destruct (participants details) as [|email rest]; [done|].
  change (0 <? length (email :: rest))%nat with true. cbv iota.
  apply text_of_participantsList.
Qed.

Lemma text_of_card name details :
  text_of (activityCard name details) = card_text name details.
Proof.
  unfold activityCard, card_text, availabilityStrong, participantsLabel,
    createElement, createTextNode, className, setAttribute, Dom.appendChild,
    with_children.
  cbn [app]. rewrite !text_of_elem. cbn [foldr].
  rewrite !text_of_textContent, !text_of_elem. cbn [foldr text_of].
  rewrite !text_of_textContent, text_of_participantsBody.
  unfold spots_text, spotsLeft.
  rewrite !string_app_nil_r, !string_app_assoc. reflexivity.
Qed.

Lemma text_of_option name : text_of (option_ name) = name.
Proof.
  unfold option_, createElement, setAttribute. apply text_of_textContent.
Qed.

End TextFacts.

(** ** The pages a load produces *)

Module ReachFacts.
Import Dom DomFacts.

Lemma first_in_none p l :
  first_in p l = None ↔ Forall (λ x, first_match p x = None) l.
Proof. apply first_from_none. Qed.

Lemma listItem_unnamed name email value :
  first_match (has_attr "data-activity-name" value) (listItem name email) = None.
Proof.
  unfold listItem, Dom.textContent, createElement. simpl.
  by destruct (bool_decide (email = "")).
Qed.

Lemma participantsBody_unnamed name details value :
  first_match (has_attr "data-activity-name" value) (participantsBody name details)
  = None.
Proof.
  unfold participantsBody. destruct (0 <? length (participants details))%nat; [|done].
  unfold participantsList, className, createElement.
  rewrite TextFacts.participantsList_children, first_match_elem.
  cbn [app]. change (has_attr _ _ _) with false. cbv iota.
  apply first_in_none, Forall_fmap, Forall_forall. intros email _.
  apply listItem_unnamed.
Qed.

Lemma textContent_unnamed value text tag :
  first_match (has_attr "data-activity-name" value)
    (Dom.textContent text (createElement tag)) = None.
Proof. unfold Dom.textContent. simpl. by destruct (bool_decide (text = "")). Qed.

(** Inside a card no element carries an activity name. *)
Lemma card_children_unnamed name details value :
  first_in (has_attr "data-activity-name" value) (children (activityCard name details))
  = None.
Proof.
  unfold activityCard, first_in.
  cbn [children Dom.appendChild with_children className setAttribute
       createElement app first_from].
  rewrite !textContent_unnamed, !first_match_elem.
  change (has_attr "data-activity-name" value (Elem "p" [] [] _)) with false.
  change (has_attr "data-activity-name" value (Elem "p" _ [] _)) with false.
  change (has_attr "data-activity-name" value (Elem "div" _ [] _)) with false.
  cbv iota. unfold first_in, participantsLabel, availabilityStrong.
  cbn [first_from]. rewrite !textContent_unnamed, participantsBody_unnamed.
  reflexivity.
Qed.

Lemma card_first_match name details value :
  first_match (has_attr "data-activity-name" value) (activityCard name details)
  = if bool_decide (name = value) then Some [] else None.
Proof.
  pose proof (card_children_unnamed name details value) as H.
  pose proof (LoadFacts.card_name name details) as Hn.
  destruct (activityCard name details) as [|tag cl at_ ch]; [done|].
  rewrite first_match_elem. simpl in H. rewrite H.
  unfold has_attr. rewrite Hn.
  repeat case_bool_decide; congruence.
Qed.

(** The container a load fills decomposes around the card of any of its
    keys, and nothing before that card carries the key. *)
Lemma rendered_split (activities : Catalog) name details :
  own_property activities name = Some details →
  ∃ before after,
    rendered activities = before ++ activityCard name details :: after ∧
    first_in (has_attr "data-activity-name" name) before = None.
Proof.
  induction activities as [|[k d] rest IH]; [done|]. simpl.
  case_bool_decide as Hk.
  - intros [= ->]. subst k. by exists [], (rendered rest).
  - intros Hown. destruct (IH Hown) as (before & after & Hsplit & Hnone).
    exists (activityCard k d :: before), after. split.
    + unfold rendered in *. cbn [fmap list_fmap]. simpl. by rewrite Hsplit.
    + unfold first_in in *. cbn [first_from]. rewrite card_first_match.
      rewrite bool_decide_eq_false_2 by done.
      apply first_from_none. by apply first_from_none in Hnone.
Qed.

End ReachFacts.

(** * The claims *)

(** ** Full load *)

(** C1, as amended.  For every catalog the server returns, a full load
    ([fetchActivities]) leaves in the container exactly one card per key of
    the catalog and appends to the select exactly one option per key, and
    nothing else.  The availability paragraph of the card of a key reads
    what the script computes in doubles from the capacity of the entry and
    the number of its participants; that is the capacity minus the number
    of participants whenever the capacity, the number and the difference
    are at most [2 ^ 53] in absolute value. *)
Theorem fetchActivities_one_card_and_option_per_key
    (activities : Catalog) (response_ok : bool)
    (rest : list (option (Response Catalog))) (w : World) :
  catalogReplies w = Some {| ok := response_ok; body := Some activities |} :: rest →
  NoDup (keys activities) →
  ∃ added,
    activitySelect (exec fetchActivities w) = activitySelect w ++ added ∧
    length (activitiesList (exec fetchActivities w)) = length (keys activities) ∧
    length added = length (keys activities) ∧
    ∀ name details, (name, details) ∈ activities →
      ∃ card,
        cards_named name (activitiesList (exec fetchActivities w)) = [card] ∧
        length (options_valued name added) = 1%nat ∧
        availability_text card
        = Some ("Availability: " +:+ Number.to_string (spotsLeft details)
                  +:+ " spots left") ∧
        (exact_arithmetic details = true →
         availability_text card
         = Some ("Availability: "
                   +:+ pretty (max_participants details
                               - Z.of_nat (length (participants details)))%Z
                   +:+ " spots left")).
Proof.
  intros Hreply Hnd. unfold exec.
  rewrite (LoadFacts.fetchActivities_loaded _ _ _ _ Hreply). simpl.
  exists (options activities). split; [done|].
  split; [apply LoadFacts.length_rendered|].
  split; [apply LoadFacts.length_options|].
  intros name details Hin. exists (activityCard name details).
  split; [by apply LoadFacts.cards_named_rendered|].
  split.
  { rewrite LoadFacts.options_valued_options; [done..|].
    apply list_elem_of_fmap. by exists (name, details). }
  split; [apply LoadFacts.availability_text_card|].
  intros Hexact. rewrite LoadFacts.availability_text_card.
  by rewrite (NumberFacts.to_string_spotsLeft _ Hexact).
Qed.

Lemma fetchActivities_one_card_and_option_per_key_witness :
  ∃ added,
    activitySelect (exec fetchActivities (Sample.page Sample.same_twice []))
    = activitySelect (Sample.page Sample.same_twice []) ++ added ∧
    length (activitiesList (exec fetchActivities (Sample.page Sample.same_twice [])))
    = length (keys Sample.catalog) ∧
    length added = length (keys Sample.catalog) ∧
    ∀ name details, (name, details) ∈ Sample.catalog →
      ∃ card,
        cards_named name
          (activitiesList (exec fetchActivities (Sample.page Sample.same_twice [])))
        = [card] ∧
        length (options_valued name added) = 1%nat ∧
        availability_text card
        = Some ("Availability: " +:+ Number.to_string (spotsLeft details)
                  +:+ " spots left") ∧
        (exact_arithmetic details = true →
         availability_text card
         = Some ("Availability: "
                   +:+ pretty (max_participants details
                               - Z.of_nat (length (participants details)))%Z
                   +:+ " spots left")).
Proof.
  apply (fetchActivities_one_card_and_option_per_key Sample.catalog true
           [Sample.ok_catalog Sample.catalog] (Sample.page Sample.same_twice [])).
  - reflexivity.
  - apply (bool_decide_unpack _). vm_compute. reflexivity.
Defined.

(** C1 as stated fails beyond the integers that doubles tell apart: for
    a capacity of [2 ^ 53 + 2] with one place taken the card of the only
    entry shows [2 ^ 53] spots, one fewer than the capacity minus the
    number of participants. *)
Theorem fetchActivities_vast_capacity_rounds :
  cards_named "Open Lectures"
    (activitiesList
       (exec fetchActivities (Sample.page [Sample.ok_catalog Sample.vast_catalog] [])))
  = [activityCard "Open Lectures" Sample.vast] ∧
  availability_text (activityCard "Open Lectures" Sample.vast)
  = Some "Availability: 9007199254740992 spots left" ∧
  pretty (max_participants Sample.vast
          - Z.of_nat (length (participants Sample.vast)))%Z
  = "9007199254740993".
Proof. vm_compute. done. Qed.

(** The card of the specification's example: ten places, one taken. *)
Example chess_card_shows_nine_spots :
  availability_text (activityCard "Chess Club" Sample.chess)
  = Some "Availability: 9 spots left".
Proof. vm_compute. reflexivity. Qed.

(** A second load of any catalog rebuilds the cards and appends every
    option once more: the select is never emptied. *)
Lemma fetchActivities_again (activities : Catalog) (ok1 ok2 : bool)
    (rest : list (option (Response Catalog))) (w : World) :
  catalogReplies w
  = Some {| ok := ok1; body := Some activities |}
      :: Some {| ok := ok2; body := Some activities |} :: rest →
  activitiesList (exec (fetchActivities ;; fetchActivities) w)
  = activitiesList (exec fetchActivities w) ∧
  activitySelect (exec (fetchActivities ;; fetchActivities) w)
  = activitySelect (exec fetchActivities w) ++ options activities.
Proof.
  intros Hreply. unfold exec. rewrite bind_run.
  rewrite (LoadFacts.fetchActivities_loaded _ _ _ _ Hreply).
  by erewrite LoadFacts.fetchActivities_loaded.
Qed.

(** C2.  Idempotence of the full load fails on the select: after loading
    the same two-entry catalog twice the container holds the same cards as
    after one load, but the select holds four options instead of two. *)
Theorem fetchActivities_twice_duplicates_options :
  activitiesList Sample.loaded_twice = activitiesList Sample.loaded_once ∧
  length (activitySelect Sample.loaded_once) = 2%nat ∧
  length (activitySelect Sample.loaded_twice) = 4%nat.
Proof. vm_compute. done. Qed.

(** C3.  Server strings are text only.  In a full load and in a refresh of
    any card, from any page state and whatever the server answers, the only
    markups handed to the HTML parser are the empty string and the fixed
    failure paragraph; the text of a card is the concatenation of the
    name, the description, the schedule and the emails as they are, between
    the labels, and likewise for an option and for the participants list a
    refresh inserts. *)
Theorem server_strings_rendered_as_text (activityName : string) (w : World) :
  (∀ markup, markup ∈ parsed (trace (exec fetchActivities w)) →
     markup ∈ parsed (trace w) ∨ constant_markup markup) ∧
  (∀ markup, markup ∈ parsed (trace (exec (updateActivityCard activityName) w)) →
     markup ∈ parsed (trace w) ∨ constant_markup markup) ∧
  (∀ name details,
     Dom.text_of (activityCard name details) = card_text name details ∧
     Dom.text_of (option_ name) = name ∧
     Dom.text_of (participantsBody name details)
     = participants_text (participants details)).
Proof.
  split; [|split].
  - intros markup. apply TraceFacts.parsed_after, TraceFacts.ah_fetchActivities.
  - intros markup. apply TraceFacts.parsed_after, TraceFacts.ah_updateActivityCard.
  - intros name details. split; [apply TextFacts.text_of_card|].
    split; [apply TextFacts.text_of_option|apply TextFacts.text_of_participantsBody].
Qed.

(** ** Refresh of one card *)

(** A successful refresh of the card of an activity whose name the
    selector reads literally: the catalog arrives, has an entry for the
    name, and the card rendered for that name is the first element
    carrying it.  The refresh completes and rewrites the availability
    paragraph and the participants section of that card from the fresh
    entry; its title, description and schedule elements (its first three
    children), every other child of the container, the select and the
    message are as before. *)
Lemma updateActivityCard_patches_only_dynamic_parts
    (activityName : string) (activities : Catalog) (details old : Activity)
    (response_ok : bool) (rest : list (option (Response Catalog)))
    (before after : list Node) (w : World) :
  catalogReplies w = Some {| ok := response_ok; body := Some activities |} :: rest →
  own_property activities activityName = Some details →
  Css.read_name activityName = Css.Exact →
  activitiesList w = before ++ activityCard activityName old :: after →
  Dom.first_in (Dom.has_attr "data-activity-name" activityName) before = None →
  completion (updateActivityCard activityName) w = Normal () ∧
  activitiesList (exec (updateActivityCard activityName) w)
  = before ++ activityCard activityName (refreshed old details) :: after ∧
  take 3 (Dom.children (activityCard activityName (refreshed old details)))
  = take 3 (Dom.children (activityCard activityName old)) ∧
  activitySelect (exec (updateActivityCard activityName) w) = activitySelect w ∧
  messageDiv (exec (updateActivityCard activityName) w) = messageDiv w.
Proof.
  intros Hreply Hown Hname Hlist Hbefore. unfold exec, completion.
  rewrite (RefreshFacts.updateActivityCard_found _ _ _ _ _ _ _ _ _
             Hreply Hown Hname Hlist Hbefore) by apply CardFacts.has_attr_card.
  cbv zeta. by rewrite CardFacts.refresh_card.
Qed.

Lemma updateActivityCard_patches_only_dynamic_parts_witness :
  completion (updateActivityCard "Chess Club") Sample.loaded_page = Normal () ∧
  activitiesList (exec (updateActivityCard "Chess Club") Sample.loaded_page)
  = [] ++ activityCard "Chess Club" (refreshed Sample.chess Sample.chess_joined)
       :: [activityCard "Gym Class" Sample.gym] ∧
  take 3 (Dom.children
            (activityCard "Chess Club" (refreshed Sample.chess Sample.chess_joined)))
  = take 3 (Dom.children (activityCard "Chess Club" Sample.chess)) ∧
  activitySelect (exec (updateActivityCard "Chess Club") Sample.loaded_page)
  = activitySelect Sample.loaded_page ∧
  messageDiv (exec (updateActivityCard "Chess Club") Sample.loaded_page)
  = messageDiv Sample.loaded_page.
Proof.
  apply (updateActivityCard_patches_only_dynamic_parts "Chess Club"
           Sample.catalog_joined Sample.chess_joined Sample.chess true [] []
           [activityCard "Gym Class" Sample.gym] Sample.loaded_page);
    reflexivity.
Defined.

(** C4.  The refresh does not keep to the card of its activity.  The name
    goes into the selector as it is, and inside the selector a backslash
    is an escape: the refresh of the activity [Chess\ Club] looks for the
    first element named [Chess Club].  On a page that shows both, after a
    signup for the second, the refresh completes normally; the card of
    [Chess Club] then shows, under its own name, description and
    schedule, the four places left and the participant of the other
    activity, and the card of [Chess\ Club] itself is as it was. *)
Theorem updateActivityCard_escaped_name_patches_other_card :
  Css.read_name Sample.escaped_name = Css.Escaped "Chess Club" ∧
  activitiesList Sample.shadow_page
  = [activityCard "Chess Club" Sample.chess;
     activityCard Sample.escaped_name Sample.club] ∧
  completion (updateActivityCard Sample.escaped_name) Sample.shadow_page = Normal () ∧
  ∃ other,
    activitiesList (exec (updateActivityCard Sample.escaped_name) Sample.shadow_page)
    = [other; activityCard Sample.escaped_name Sample.club] ∧
    Dom.getAttribute "data-activity-name" other = Some "Chess Club" ∧
    availability_text other = Some "Availability: 4 spots left" ∧
    availability_text (activityCard "Chess Club" Sample.chess)
    = Some "Availability: 9 spots left" ∧
    Dom.text_of other
    = card_text "Chess Club" (refreshed Sample.chess Sample.club_joined).
Proof.
  split; [by vm_compute|]. split; [by vm_compute|]. split; [by vm_compute|].
  eexists. split; [vm_compute; reflexivity|]. by vm_compute.
Qed.

(** Where the defensive exit of the refresh does hold: a name that is
    neither a key of the catalog nor a member of [Object.prototype]. *)
Lemma updateActivityCard_unknown_activity
    (activityName : string) (activities : Catalog) (response_ok : bool)
    (rest : list (option (Response Catalog))) (w : World) :
  catalogReplies w = Some {| ok := response_ok; body := Some activities |} :: rest →
  get_property activities activityName = Undefined →
  updateActivityCard activityName w
  = (Normal (),
     with_page (activitiesList w)
       [Request "GET" "/activities";
        ConsoleError ("Activity " +:+ activityName +:+ " not found") None] rest w).
Proof.
  intros Hreply Hprop. destruct w as [al sel md form fd tr cr ar ck tm].
  simpl in Hreply. subst. unfold updateActivityCard. js_run. rewrite Hprop.
  unfold with_page. setters. by rewrite <- app_assoc.
Qed.

(** And a name the selector reads literally, with no element carrying it. *)
Lemma updateActivityCard_no_card
    (activityName : string) (activities : Catalog) (response_ok : bool)
    (rest : list (option (Response Catalog))) (w : World) :
  catalogReplies w = Some {| ok := response_ok; body := Some activities |} :: rest →
  get_property activities activityName ≠ Undefined →
  Css.read_name activityName = Css.Exact →
  Dom.first_in (Dom.has_attr "data-activity-name" activityName) (activitiesList w)
  = None →
  updateActivityCard activityName w
  = (Normal (),
     with_page (activitiesList w)
       [Request "GET" "/activities";
        ConsoleError ("Card for " +:+ activityName +:+ " not found") None] rest w).
Proof.
  intros Hreply Hprop Hname Hnone. destruct w as [al sel md form fd tr cr ar ck tm].
  simpl in Hreply, Hnone. subst. unfold updateActivityCard. js_run.
  rewrite Hname. unfold Dom.first_in in Hnone |- *.
  destruct (get_property activities activityName); try done;
    simpl; rewrite Hnone; unfold with_page; setters; by rewrite <- app_assoc.
Qed.

(** A name that breaks the selector never reaches the test for a missing
    card: the refresh of such an activity is always a full reload. *)
Lemma updateActivityCard_invalid_selector
    (activityName : string) (activities : Catalog) (response_ok : bool)
    (rest : list (option (Response Catalog))) (w : World) :
  catalogReplies w = Some {| ok := response_ok; body := Some activities |} :: rest →
  get_property activities activityName ≠ Undefined →
  Css.read_name activityName = Css.Invalid →
  updateActivityCard activityName w
  = fetchActivities
      (with_page (activitiesList w)
         [Request "GET" "/activities";
          ConsoleError "Error updating activity card:" (Some InvalidSelector)] rest w).
Proof.
  intros Hreply Hprop Hname. destruct w as [al sel md form fd tr cr ar ck tm].
  simpl in Hreply. subst. unfold updateActivityCard. js_run. rewrite Hname.
  destruct (get_property activities activityName); try done;
    unfold with_page; setters; by rewrite <- app_assoc.
Qed.

(** C5.  The defensive exit is missed for a name with a double quote.  In
    the state [Sample.failed_page] the catalog about to arrive has the
    entry and the container holds the failure paragraph only, so no card
    with the name exists; and yet the refresh neither logs that the card is
    missing nor leaves the page alone: the selector is invalid, the
    exception is caught, and the full reload replaces the container and
    appends an option. *)
Theorem updateActivityCard_quoted_name_reloads :
  own_property Sample.quoted_catalog Sample.quoted_name = Some Sample.chess ∧
  head (catalogReplies Sample.failed_page)
  = Some (Sample.ok_catalog Sample.quoted_catalog) ∧
  activitiesList Sample.failed_page = [Elem "p" [] [] [Text failure_text]] ∧
  trace (exec (updateActivityCard Sample.quoted_name) Sample.failed_page)
  = trace Sample.failed_page
      ++ [Request "GET" "/activities";
          ConsoleError "Error updating activity card:" (Some InvalidSelector);
          Request "GET" "/activities"; ParseHTML ""] ∧
  activitiesList (exec (updateActivityCard Sample.quoted_name) Sample.failed_page)
  = [activityCard Sample.quoted_name Sample.chess] ∧
  activitySelect (exec (updateActivityCard Sample.quoted_name) Sample.failed_page)
  = activitySelect Sample.failed_page ++ [option_ Sample.quoted_name].
Proof. vm_compute. repeat split; done. Qed.

(** The other disjunct is missed for a name that [Object.prototype]
    defines: the catalog has no such entry, the lookup is truthy all the
    same, and reading the participants of the inherited member throws. *)
Example updateActivityCard_inherited_name_reloads :
  own_property Sample.catalog "constructor" = None ∧
  trace (exec (updateActivityCard "constructor") Sample.stale_page)
  = [Request "GET" "/activities";
     ConsoleError "Error updating activity card:" (Some UndefinedReference);
     Request "GET" "/activities"; ParseHTML ""] ∧
  activitiesList (exec (updateActivityCard "constructor") Sample.stale_page)
  = rendered Sample.catalog.
Proof. vm_compute. repeat split; done. Qed.

(** C6.  When the request of the refresh does not complete, or its body is
    not JSON, the refresh does nothing but log the error and run the full
    load. *)
Theorem updateActivityCard_fetch_failure_reloads
    (activityName : string) (error : JsError) (w : World) :
  fetch_failure w = Some error →
  updateActivityCard activityName w
  = fetchActivities
      (set_trace (λ t, t ++ [Request "GET" "/activities";
                             ConsoleError "Error updating activity card:" (Some error)])
         (set_catalogReplies tail w)).
Proof.
  unfold fetch_failure. intros Hfail. destruct w as [al sel md form fd tr cr ar ck tm].
  simpl in Hfail. unfold updateActivityCard. js_run.
  destruct cr as [|[[response_ok [activities|]]|] rest]; simpl in *;
    try discriminate; injection Hfail as <-; setters; by rewrite <- app_assoc.
Qed.

Lemma updateActivityCard_fetch_failure_reloads_witness :
  updateActivityCard "Chess Club" Sample.offline_page
  = fetchActivities
      (set_trace (λ t, t ++ [Request "GET" "/activities";
                             ConsoleError "Error updating activity card:"
                               (Some FetchFailed)])
         (set_catalogReplies tail Sample.offline_page)).
Proof.
  apply (updateActivityCard_fetch_failure_reloads "Chess Club" FetchFailed
           Sample.offline_page).
  reflexivity.
Defined.

(** C10.  For a card found by the refresh: when it has no availability
    element the availability update is skipped and the participants
    section is patched all the same; when it has no participants section
    the write to [null] throws, after the availability update if there was
    one, and the handler logs the error and runs the full load. *)
Theorem updateActivityCard_missing_elements
    (activityName : string) (activities : Catalog) (details : Activity)
    (response_ok : bool) (rest : list (option (Response Catalog)))
    (before after : list Node) (card : Node) (w : World) :
  catalogReplies w = Some {| ok := response_ok; body := Some activities |} :: rest →
  own_property activities activityName = Some details →
  Css.read_name activityName = Css.Exact →
  activitiesList w = before ++ card :: after →
  Dom.first_in (Dom.has_attr "data-activity-name" activityName) before = None →
  Dom.has_attr "data-activity-name" activityName card = true →
  (Dom.first_in (Dom.has_class "availability") (Dom.children card) = None →
   ∀ q, Dom.first_in (Dom.has_class "participants-section") (Dom.children card) = Some q →
     updateActivityCard activityName w
     = (Normal (),
        with_page
          (before
             ++ Dom.with_children
                  (Dom.modify_at q
                     (set_children [participantsLabel;
                                    participantsBody activityName details])) card
             :: after)
          [Request "GET" "/activities"; ParseHTML ""] rest w)) ∧
  (Dom.first_in (Dom.has_class "participants-section") (Dom.children card) = None →
   updateActivityCard activityName w
   = fetchActivities
       (with_page (before ++ patch_availability details card :: after)
          (Request "GET" "/activities" :: availability_events card
             ++ [ConsoleError "Error updating activity card:" (Some NullReference)])
          rest w)).
Proof.
  intros Hreply Hown Hname Hlist Hbefore Hcard.
  rewrite (RefreshFacts.updateActivityCard_found _ _ _ _ _ _ _ _ _
             Hreply Hown Hname Hlist Hbefore Hcard).
  cbv zeta. unfold patch_participants. split.
  - intros Ha q Hq. unfold patch_availability, availability_events.
    rewrite Ha, Hq. reflexivity.
  - intros Hp. by rewrite RefreshFacts.patch_availability_keeps_missing.
Qed.

Lemma updateActivityCard_missing_elements_witness :
  updateActivityCard "Chess Club"
    (Sample.board [Sample.card_without_availability] Sample.same_twice)
  = (Normal (),
     with_page
       ([] ++ Dom.with_children
                (Dom.modify_at [1%nat]
                   (set_children [participantsLabel;
                                  participantsBody "Chess Club" Sample.chess]))
                Sample.card_without_availability :: [])
       [Request "GET" "/activities"; ParseHTML ""]
       [Sample.ok_catalog Sample.catalog]
       (Sample.board [Sample.card_without_availability] Sample.same_twice)) ∧
  updateActivityCard "Chess Club"
    (Sample.board [Sample.card_without_participants] Sample.same_twice)
  = fetchActivities
      (with_page
         ([] ++ patch_availability Sample.chess Sample.card_without_participants :: [])
         (Request "GET" "/activities"
            :: availability_events Sample.card_without_participants
            ++ [ConsoleError "Error updating activity card:" (Some NullReference)])
         [Sample.ok_catalog Sample.catalog]
         (Sample.board [Sample.card_without_participants] Sample.same_twice)).
Proof.
  split.
  - apply (proj1 (updateActivityCard_missing_elements "Chess Club" Sample.catalog
                    Sample.chess true [Sample.ok_catalog Sample.catalog] [] []
                    Sample.card_without_availability
                    (Sample.board [Sample.card_without_availability] Sample.same_twice)
                    eq_refl eq_refl eq_refl eq_refl eq_refl eq_refl));
      reflexivity.
  - apply (proj2 (updateActivityCard_missing_elements "Chess Club" Sample.catalog
                    Sample.chess true [Sample.ok_catalog Sample.catalog] [] []
                    Sample.card_without_participants
                    (Sample.board [Sample.card_without_participants] Sample.same_twice)
                    eq_refl eq_refl eq_refl eq_refl eq_refl eq_refl));
      reflexivity.
Defined.

(** ** The handlers and the message *)

Lemma requests_app t1 t2 : requests (t1 ++ t2) = requests t1 ++ requests t2.
Proof. unfold requests. apply omap_app. Qed.

(** C7, as amended.  When a signup is answered by a non-ok response whose
    JSON body has a [detail] string, the message area shows that string,
    or the generic text when the string is empty, with the class [error],
    visibly; the container, the select and the pending catalog replies are
    untouched and the only request sent is the signup itself, so no card is
    refreshed. *)
Theorem onSubmit_rejected_shows_detail
    (reason : string) (note : option string)
    (rest : list (option (Response Result))) (w : World) :
  actionReplies w
  = Some {| ok := false; body := Some {| message := note; detail := Some reason |} |}
      :: rest →
  text (messageDiv (exec onSubmit w))
  = (if bool_decide (reason = "") then "An error occurred" else reason) ∧
  classes (messageDiv (exec onSubmit w)) = ["error"] ∧
  visible (exec onSubmit w) = true ∧
  activitiesList (exec onSubmit w) = activitiesList w ∧
  activitySelect (exec onSubmit w) = activitySelect w ∧
  catalogReplies (exec onSubmit w) = catalogReplies w ∧
  requests (trace (exec onSubmit w)) = requests (trace w) ++ [("POST", signup_url w)].
Proof.
  intros Hreply. destruct w as [al sel md form fd tr cr ar ck tm].
  simpl in Hreply. subst ar. unfold onSubmit, showMessage. js_run.
  repeat split.
  - unfold Val.or, Val.truthy, Val.of_option. simpl. by case_bool_decide.
  - setters. rewrite !requests_app. simpl. by rewrite app_nil_r.
Qed.

Lemma onSubmit_rejected_shows_detail_witness :
  text (messageDiv (exec onSubmit Sample.rejected_page))
  = "Student is already signed up" ∧
  classes (messageDiv (exec onSubmit Sample.rejected_page)) = ["error"] ∧
  visible (exec onSubmit Sample.rejected_page) = true ∧
  activitiesList (exec onSubmit Sample.rejected_page)
  = activitiesList Sample.rejected_page ∧
  activitySelect (exec onSubmit Sample.rejected_page)
  = activitySelect Sample.rejected_page ∧
  catalogReplies (exec onSubmit Sample.rejected_page)
  = catalogReplies Sample.rejected_page ∧
  requests (trace (exec onSubmit Sample.rejected_page))
  = requests (trace Sample.rejected_page)
      ++ [("POST", signup_url Sample.rejected_page)].
Proof.
  apply (onSubmit_rejected_shows_detail "Student is already signed up" None []
           Sample.rejected_page).
  reflexivity.
Defined.

(** C7 as stated fails when the [detail] field is the empty string: the
    body contains the field, and the message area shows the generic text
    instead of it. *)
Lemma onSubmit_empty_detail_shows_fallback :
  actionReplies Sample.silent_rejection_page
  = [Some {| ok := false; body := Some {| message := None; detail := Some "" |} |}] ∧
  text (messageDiv (exec onSubmit Sample.silent_rejection_page)) = "An error occurred" ∧
  text (messageDiv (exec onSubmit Sample.silent_rejection_page)) ≠ "".
Proof. vm_compute. done. Qed.

(** C8.  A click on a removal control whose confirmation the user
    declines changes nothing but the record that the prompt was shown: no
    request is sent, and the container, the select, the message and the
    timers are as before. *)
Theorem onClick_declined_changes_nothing (target : Node) (w : World) :
  Dom.has_class "remove-participant-btn" target = true →
  exec (onClick target false) w
  = set_trace (λ t, t ++ [Confirm (confirmationMessage target)]) w ∧
  requests (trace (exec (onClick target false) w)) = requests (trace w) ∧
  activitiesList (exec (onClick target false) w) = activitiesList w ∧
  activitySelect (exec (onClick target false) w) = activitySelect w ∧
  messageDiv (exec (onClick target false) w) = messageDiv w ∧
  timers (exec (onClick target false) w) = timers w.
Proof.
  intros Hbtn. unfold onClick. rewrite Hbtn. js_run.
  destruct w. setters. rewrite requests_app. simpl. by rewrite app_nil_r.
Qed.

Lemma onClick_declined_changes_nothing_witness :
  exec (onClick Sample.remove_button false) Sample.loaded_once
  = set_trace (λ t, t ++ [Confirm (confirmationMessage Sample.remove_button)])
      Sample.loaded_once ∧
  requests (trace (exec (onClick Sample.remove_button false) Sample.loaded_once))
  = requests (trace Sample.loaded_once) ∧
  activitiesList (exec (onClick Sample.remove_button false) Sample.loaded_once)
  = activitiesList Sample.loaded_once ∧
  activitySelect (exec (onClick Sample.remove_button false) Sample.loaded_once)
  = activitySelect Sample.loaded_once ∧
  messageDiv (exec (onClick Sample.remove_button false) Sample.loaded_once)
  = messageDiv Sample.loaded_once ∧
  timers (exec (onClick Sample.remove_button false) Sample.loaded_once)
  = timers Sample.loaded_once.
Proof.
  apply (onClick_declined_changes_nothing Sample.remove_button Sample.loaded_once).
  reflexivity.
Defined.

(** C9, as amended.  A call of [showMessage] sets the text and the kind,
    makes the message visible and adds a hide timer due five seconds
    later.  No timer is ever cancelled: after the call the message is
    visible exactly as long as no pending timer, an earlier call's or its
    own, has come due. *)
Theorem showMessage_visible_until_earliest_timer
    (value : Value) (type : string) (w : World) (dt : nat) :
  text (messageDiv (exec (showMessage value type) w)) = Val.to_text value ∧
  classes (messageDiv (exec (showMessage value type) w))
  = filter (λ c, c ≠ "hidden") (Str.tokens type) ∧
  visible (exec (showMessage value type) w) = true ∧
  timers (exec (showMessage value type) w) = timers w ++ [clock w + 5000] ∧
  (visible (elapse dt (exec (showMessage value type) w)) = true
   ↔ ∀ due, due ∈ timers w ++ [clock w + 5000] → (clock w + dt < due)%nat).
Proof.
  unfold exec. rewrite MessageFacts.showMessage_run.
  destruct w as [al sel md form fd tr cr ar ck tm]. simpl.
  assert (Hv : visible {| activitiesList := al; activitySelect := sel;
             messageDiv := {| text := Val.to_text value;
                              classes := filter (λ c, c ≠ "hidden") (Str.tokens type) |};
             signupForm := form; formDefaults := fd; trace := tr;
             catalogReplies := cr; actionReplies := ar; clock := ck;
             timers := tm ++ [ck + 5000] |} = true).
  { unfold visible. simpl. by rewrite MessageFacts.not_hidden_filter. }
  repeat split; try done.
  - unfold elapse. simpl. rewrite MessageFacts.visible_foldl_hide.
    intros H. apply MessageFacts.filter_due_nil.
    revert H. by destruct (filter (λ t : nat, (t ≤ ck + dt)%nat) _).
  - intros H. unfold elapse. simpl. rewrite MessageFacts.visible_foldl_hide.
    apply MessageFacts.filter_due_nil in H. rewrite H.
    setters. unfold visible. simpl. by rewrite MessageFacts.not_hidden_filter.
Qed.

(** C9 as stated fails: a second message shown three seconds after a
    first is visible, and two seconds later, long before its own five
    seconds are over, the timer of the first call has hidden it. *)
Lemma showMessage_earlier_timer_hides_later_message :
  text (messageDiv Sample.second_shown) = "second" ∧
  visible Sample.second_shown = true ∧
  clock Sample.second_shown = 3000%nat ∧
  timers Sample.second_shown = [5000%nat; 8000%nat] ∧
  visible (elapse 2000 Sample.second_shown) = false.
Proof. vm_compute. done. Qed.

(** * More of the script *)

Import MonadFacts Observe.

(** ** What a computation leaves alone *)

Module FrameFacts.

Section Keeps.
Context {B : Type} (observe : World → B).

Lemma keeps_ret {A} (a : A) : keeps observe (mret a).
Proof. by intros w. Qed.

Lemma keeps_throw {A} e : keeps observe (@throw A e).
Proof. by intros w. Qed.

Lemma keeps_unmodelled {A} : keeps observe (@unmodelled A).
Proof. by intros w. Qed.

Lemma keeps_gets {A} (f : World → A) : keeps observe (gets f).
Proof. by intros w. Qed.

Lemma keeps_modify (f : World → World) :
  (∀ w, observe (f w) = observe w) → keeps observe (modify f).
Proof. intros Hf w. apply Hf. Qed.

Lemma keeps_bind {A C} (m : Js A) (k : A → Js C) :
  keeps observe m → (∀ a, keeps observe (k a)) → keeps observe (m ≫= k).
Proof.
  intros Hm Hk w. rewrite bind_run. specialize (Hm w).
  destruct (m w) as [[a|e|] w1]; simpl in *; try done.
  by rewrite Hk.
Qed.

Lemma keeps_try_catch {A} (m : Js A) (h : JsError → Js A) :
  keeps observe m → (∀ e, keeps observe (h e)) → keeps observe (try_catch m h).
Proof.
  intros Hm Hh w. unfold try_catch. specialize (Hm w).
  destruct (m w) as [[a|e|] w1]; simpl in *; try done.
  by rewrite Hh.
Qed.

Lemma keeps_forEach {A} (l : list A) (f : A → Js unit) :
  (∀ x, keeps observe (f x)) → keeps observe (forEach l f).
Proof.
  intros Hf. induction l as [|x r IH]; [apply keeps_ret|].
  cbn [forEach]. apply keeps_bind; [apply Hf|by intros _].
Qed.

End Keeps.

Section Appends.
Context (P : Effect → Prop).

Lemma only_ret {A} (a : A) : appends_only P (mret a).
Proof. intros w. exists []. by rewrite app_nil_r. Qed.

Lemma only_throw {A} e : appends_only P (@throw A e).
Proof. intros w. exists []. by rewrite app_nil_r. Qed.

Lemma only_unmodelled {A} : appends_only P (@unmodelled A).
Proof. intros w. exists []. by rewrite app_nil_r. Qed.

Lemma only_gets {A} (f : World → A) : appends_only P (gets f).
Proof. intros w. exists []. by rewrite app_nil_r. Qed.

Lemma only_modify (f : World → World) :
  (∀ w, trace (f w) = trace w) → appends_only P (modify f).
Proof. intros Hf w. exists []. simpl. by rewrite Hf, app_nil_r. Qed.

Lemma only_emit e : P e → appends_only P (emit e).
Proof. intros He w. exists [e]. split; [by destruct w|by constructor]. Qed.

Lemma only_bind {A C} (m : Js A) (k : A → Js C) :
  appends_only P m → (∀ a, appends_only P (k a)) → appends_only P (m ≫= k).
Proof.
  intros Hm Hk w. rewrite bind_run. destruct (Hm w) as (t1 & E1 & H1).
  destruct (m w) as [[a|e|] w1]; simpl in *; try by exists t1.
  destruct (Hk a w1) as (t2 & E2 & H2). exists (t1 ++ t2).
  rewrite E2, E1, app_assoc. split; [done|]. by apply Forall_app.
Qed.

Lemma only_try_catch {A} (m : Js A) (h : JsError → Js A) :
  appends_only P m → (∀ e, appends_only P (h e)) → appends_only P (try_catch m h).
Proof.
  intros Hm Hh w. unfold try_catch. destruct (Hm w) as (t1 & E1 & H1).
  destruct (m w) as [[a|e|] w1]; simpl in *; try by exists t1.
  destruct (Hh e w1) as (t2 & E2 & H2). exists (t1 ++ t2).
  rewrite E2, E1, app_assoc. split; [done|]. by apply Forall_app.
Qed.

Lemma only_forEach {A} (l : list A) (f : A → Js unit) :
  (∀ x, appends_only P (f x)) → appends_only P (forEach l f).
Proof.
  intros Hf. induction l as [|x r IH]; [apply only_ret|].
  cbn [forEach]. apply only_bind; [apply Hf|by intros _].
Qed.

End Appends.

Ltac keeps_step :=
  first
    [ apply keeps_ret | apply keeps_throw | apply keeps_unmodelled | apply keeps_gets
    | apply keeps_modify; intros []; reflexivity
    | apply keeps_bind; [|intros ?]
    | apply keeps_try_catch; [|intros ?]
    | apply keeps_forEach; intros [??]
    | match goal with
      | |- keeps _ (match ?x with _ => _ end) => destruct x
      end ].

Ltac only_step :=
  first
    [ apply only_ret | apply only_throw | apply only_unmodelled | apply only_gets
    | apply only_modify; intros []; reflexivity
    | apply only_emit; simpl; by auto
    | apply only_bind; [|intros ?]
    | apply only_try_catch; [|intros ?]
    | apply only_forEach; intros [??]
    | match goal with
      | |- appends_only _ (match ?x with _ => _ end) => destruct x
      end ].

Lemma keeps_fetchActivities : keeps beside_the_board fetchActivities.
Proof.
  unfold fetchActivities, activitiesList_innerHTML, console_error, fetch_activities,
    json, emit.
  repeat keeps_step.
Qed.

Lemma keeps_updateActivityCard name : keeps beside_the_board (updateActivityCard name).
Proof.
  unfold updateActivityCard, console_error, querySelector_card, querySelector_class,
    innerHTML, appendChild, fetch_activities, json, emit.
  repeat first [apply keeps_fetchActivities | keeps_step].
Qed.

Lemma only_fetchActivities : appends_only reads_catalog_only fetchActivities.
Proof.
  unfold fetchActivities, activitiesList_innerHTML, console_error, fetch_activities,
    json.
  repeat only_step.
Qed.

Lemma only_updateActivityCard name :
  appends_only reads_catalog_only (updateActivityCard name).
Proof.
  unfold updateActivityCard, console_error, querySelector_card, querySelector_class,
    innerHTML, appendChild, fetch_activities, json.
  repeat first [apply only_fetchActivities | only_step].
Qed.

End FrameFacts.

(** ** The full load, beyond the claims *)

Module LoadMore.

Lemma fetchActivities_failed_run (error : JsError) (w : World) :
  fetch_failure w = Some error →
  fetchActivities w
  = (Normal (),
     with_page [Elem "p" [] [] [Text failure_text]]
       [Request "GET" "/activities";
        ParseHTML ("<p>" +:+ failure_text +:+ "</p>");
        ConsoleError "Error fetching activities:" (Some error)]
       (tail (catalogReplies w)) w).
Proof.
  unfold fetch_failure. intros Hfail. destruct w as [al sel md form fd tr cr ar ck tm].
  simpl in Hfail. unfold fetchActivities. js_run.
  destruct cr as [|[[response_ok [activities|]]|] rest]; simpl in *;
    try discriminate; injection Hfail as <-; unfold with_page; setters;
    by rewrite <- !app_assoc.
Qed.

Lemma fetch_failure_cases (w : World) :
  (∃ error, fetch_failure w = Some error)
  ∨ (∃ response_ok activities rest,
       catalogReplies w
       = Some {| ok := response_ok; body := Some activities |} :: rest).
Proof.
  unfold fetch_failure. destruct (catalogReplies w) as [|[[response_ok [a|]]|] rest];
    simpl; eauto.
Qed.

Lemma card_names_rendered activities : card_names (rendered activities) = keys activities.
Proof.
  unfold card_names, rendered, keys.
  induction activities as [|[k d] rest IH]; [done|].
  cbn [fmap list_fmap omap list_omap]. rewrite LoadFacts.card_name. simpl.
  by f_equal.
Qed.

Lemma option_values_app l1 l2 :
  option_values (l1 ++ l2) = option_values l1 ++ option_values l2.
Proof. unfold option_values. apply omap_app. Qed.

Lemma option_values_options activities :
  option_values (options activities) = keys activities.
Proof.
  unfold option_values, options. generalize (keys activities) as ks.
  induction ks as [|k ks IH]; [done|].
  cbn [fmap list_fmap omap list_omap]. rewrite LoadFacts.option_value. simpl.
  by f_equal.
Qed.

Lemma requests_snoc2 t m u e :
  requests (t ++ [Request m u; e]) = requests t ++ [(m, u)] ++ requests [e].
Proof. unfold requests. by rewrite omap_app. Qed.

End LoadMore.

(** X1.  A load that fails, because the request does not complete or the
    body is not JSON, completes normally all the same: it throws away
    whatever the container showed and puts the failure paragraph there,
    logs the error, and leaves the select and the rest of the page alone. *)
Theorem fetchActivities_failure_shows_paragraph (error : JsError) (w : World) :
  fetch_failure w = Some error →
  fetchActivities w
  = (Normal (),
     with_page [Elem "p" [] [] [Text failure_text]]
       [Request "GET" "/activities";
        ParseHTML ("<p>" +:+ failure_text +:+ "</p>");
        ConsoleError "Error fetching activities:" (Some error)]
       (tail (catalogReplies w)) w).
Proof. apply LoadMore.fetchActivities_failed_run. Qed.

Lemma fetchActivities_failure_shows_paragraph_witness :
  fetchActivities Sample.offline_page
  = (Normal (),
     with_page [Elem "p" [] [] [Text failure_text]]
       [Request "GET" "/activities";
        ParseHTML ("<p>" +:+ failure_text +:+ "</p>");
        ConsoleError "Error fetching activities:" (Some FetchFailed)]
       (tail (catalogReplies Sample.offline_page)) Sample.offline_page).
Proof.
  apply (fetchActivities_failure_shows_paragraph FetchFailed Sample.offline_page).
  reflexivity.
Defined.

(** X2.  Whatever the page and whatever the server does, a load never
    throws: it completes normally, sends exactly one request (the GET of
    the catalog), uses up exactly one reply, and removes nothing from the
    select. *)
Theorem fetchActivities_always_completes (w : World) :
  completion fetchActivities w = Normal () ∧
  requests (trace (exec fetchActivities w))
  = requests (trace w) ++ [("GET", "/activities")] ∧
  catalogReplies (exec fetchActivities w) = tail (catalogReplies w) ∧
  ∃ added, activitySelect (exec fetchActivities w) = activitySelect w ++ added.
Proof.
  unfold completion, exec.
  destruct (LoadMore.fetch_failure_cases w) as [[error Hfail]|(rok & a & rest & Hok)].
  - rewrite (LoadMore.fetchActivities_failed_run error w Hfail). simpl.
    rewrite requests_app. simpl. split; [done|]. split; [done|]. split; [done|].
    exists []. by rewrite app_nil_r.
  - rewrite (LoadFacts.fetchActivities_loaded _ _ _ _ Hok). simpl.
    rewrite requests_app, Hok. simpl. repeat split; eauto.
Qed.

(** X3.  What a successful load shows depends on the catalog alone: the
    names of the children of the container are the keys of the catalog, in
    the order of the catalog, whatever the container held before; and the
    values of the options appended are the same keys in the same order. *)
Theorem fetchActivities_follows_catalog_order
    (activities : Catalog) (response_ok : bool)
    (rest : list (option (Response Catalog))) (w : World) :
  catalogReplies w = Some {| ok := response_ok; body := Some activities |} :: rest →
  length (activitiesList (exec fetchActivities w)) = length (keys activities) ∧
  card_names (activitiesList (exec fetchActivities w)) = keys activities ∧
  option_values (activitySelect (exec fetchActivities w))
  = option_values (activitySelect w) ++ keys activities.
Proof.
  intros Hreply. unfold exec.
  rewrite (LoadFacts.fetchActivities_loaded _ _ _ _ Hreply). simpl.
  rewrite LoadFacts.length_rendered, LoadMore.card_names_rendered.
  by rewrite LoadMore.option_values_app, LoadMore.option_values_options.
Qed.

Lemma fetchActivities_follows_catalog_order_witness :
  length (activitiesList (exec fetchActivities (Sample.page Sample.same_twice [])))
  = length (keys Sample.catalog) ∧
  card_names (activitiesList (exec fetchActivities (Sample.page Sample.same_twice [])))
  = keys Sample.catalog ∧
  option_values (activitySelect (exec fetchActivities (Sample.page Sample.same_twice [])))
  = option_values (activitySelect (Sample.page Sample.same_twice []))
      ++ keys Sample.catalog.
Proof.
  apply (fetchActivities_follows_catalog_order Sample.catalog true
           [Sample.ok_catalog Sample.catalog] (Sample.page Sample.same_twice [])).
  reflexivity.
Defined.

(** ** What rendering leaves alone *)

(** X5.  Rendering writes neither the message nor the timers: after a
    load and after a refresh of any name, from any page, the text and the
    classes of the message, the address typed into the form, the pending
    hide timers, the clock and the replies still due to signups and
    removals are as before.  (The value of the select of the form is not
    among them: it follows the options a load appends.) *)
Theorem rendering_leaves_message_and_timers (activityName : string) (w : World) :
  beside_the_board (exec fetchActivities w) = beside_the_board w ∧
  beside_the_board (exec (updateActivityCard activityName) w) = beside_the_board w.
Proof.
  split; [apply FrameFacts.keeps_fetchActivities|apply FrameFacts.keeps_updateActivityCard].
Qed.

(** X6.  Rendering only reads from the server: every request a load or a
    refresh of any name adds to the trace, from any page and whatever the
    replies, is a GET of [/activities]. *)
Theorem rendering_only_reads_the_catalog
    (activityName method url : string) (w : World) :
  ((method, url) ∈ requests (trace (exec fetchActivities w)) →
   (method, url) ∈ requests (trace w) ∨ (method = "GET" ∧ url = "/activities")) ∧
  ((method, url) ∈ requests (trace (exec (updateActivityCard activityName) w)) →
   (method, url) ∈ requests (trace w) ∨ (method = "GET" ∧ url = "/activities")).
Proof.
  assert (Hgen : ∀ (m : Js unit), appends_only reads_catalog_only m →
            (method, url) ∈ requests (trace (exec m w)) →
            (method, url) ∈ requests (trace w) ∨ (method = "GET" ∧ url = "/activities")).
  { intros m Hm. unfold exec. destruct (Hm w) as (added & -> & Hall).
    rewrite requests_app, elem_of_app. intros [?|Hin]; [by left|right].
    unfold requests in Hin. apply list_elem_of_omap in Hin as (e & He & Heq).
    rewrite Forall_forall in Hall. specialize (Hall e He).
    destruct e; try discriminate. injection Heq as -> ->. exact Hall. }
  split; apply Hgen;
    [apply FrameFacts.only_fetchActivities|apply FrameFacts.only_updateActivityCard].
Qed.

Module PathFacts.
Import Dom DomFacts PatchFacts.

Lemma first_from_inv p i l q :
  first_from p i l = Some q →
  ∃ k q' x, q = (i + k)%nat :: q' ∧ l !! k = Some x ∧ first_match p x = Some q'.
Proof.
  revert i. induction l as [|y r IH]; intros i; simpl; [done|].
  destruct (first_match p y) as [qy|] eqn:E.
  - intros [= <-]. exists 0%nat, qy, y. by rewrite Nat.add_0_r.
  - intros H. destruct (IH _ H) as (k & q' & x & -> & Hk & Hx).
    exists (S k), q', x. split; [f_equal; lia|done].
Qed.

Lemma first_match_inv p x q :
  first_match p x = Some q → q = [] ∨ first_in p (children x) = Some q.
Proof.
  destruct x as [data|tag cl at_ ch].
  - rewrite first_match_text. destruct (p _); [intros [= <-]; by left|done].
  - rewrite first_match_elem. destruct (p _); [intros [= <-]; by left|by right].
Qed.

(** The path a search returns designates a node. *)
Lemma get_at_first_in p q (l : list Node) :
  first_in p l = Some q → is_Some (get_at q l).
Proof.
  remember (length q) as n eqn:Hn. revert q l Hn.
  induction n as [n IH] using lt_wf_ind. intros q l Hn Hq.
  destruct (first_from_inv _ _ _ _ Hq) as (k & q' & x & -> & Hk & Hx).
  simpl. rewrite Hk. destruct q' as [|j q']; [done|].
  destruct (first_match_inv _ _ _ Hx) as [?|Hin]; [done|].
  eapply IH; [|done|exact Hin]. subst n. simpl. lia.
Qed.

(** Writing below a node keeps the node in place. *)
Lemma get_at_modify_below el j q f (l : list Node) :
  is_Some (get_at el l) → is_Some (get_at el (modify_at (el ++ j :: q) f l)).
Proof.
  revert l. induction el as [|i el IH]; intros l; [by intros [? ?]|].
  destruct el as [|i' el].
  - cbn [get_at app modify_at]. rewrite list_lookup_alter_eq.
    by destruct (l !! i).
  - change ((i :: i' :: el) ++ j :: q) with (i :: (i' :: el) ++ j :: q).
    change (modify_at (i :: (i' :: el) ++ j :: q) f l)
      with (alter (with_children (modify_at ((i' :: el) ++ j :: q) f)) i l).
    change (get_at (i :: i' :: el) l)
      with (match l !! i with
            | None => None
            | Some n => get_at (i' :: el) (children n)
            end).
    change (get_at (i :: i' :: el) ?k)
      with (match k !! i with
            | None => None
            | Some n => get_at (i' :: el) (children n)
            end).
    rewrite list_lookup_alter_eq. destruct (l !! i) as [n|]; [|by intros [? ?]].
    simpl. destruct n as [data|tag cl at_ ch]; [by intros [? ?]|]. apply IH.
Qed.

End PathFacts.

Module SettleFacts.
Import Dom DomFacts PatchFacts PathFacts.

#[local] Arguments Dom.get_at : simpl never.
#[local] Arguments Dom.modify_at : simpl never.
#[local] Arguments Dom.first_in : simpl never.
#[local] Arguments participantsBody : simpl never.
#[local] Arguments spots_text : simpl never.
#[local] Arguments availabilityStrong : simpl never.
#[local] Arguments participantsLabel : simpl never.

Lemma fetchActivities_normal w : (fetchActivities w).1 = Normal ().
Proof.
  destruct w as [al sel md form fd tr cr ar ck tm]. unfold fetchActivities. js_run.
  destruct cr as [|[[response_ok [activities|]]|] rest]; simpl; try done.
  by rewrite (forEach_normal _ append_entry) by (by intros [??] ?).
Qed.

Lemma fetchActivities_one_request w :
  requests (trace (fetchActivities w).2) = requests (trace w) ++ [("GET", "/activities")].
Proof.
  destruct w as [al sel md form fd tr cr ar ck tm]. unfold fetchActivities. js_run.
  destruct cr as [|[[response_ok [activities|]]|] rest]; simpl;
    try (setters; rewrite !requests_app; simpl; by rewrite ?app_nil_r).
  rewrite (forEach_normal _ append_entry) by (by intros [??] ?).
  rewrite LoadFacts.foldl_append_entry. setters. rewrite !requests_app. simpl.
  by rewrite ?app_nil_r.
Qed.

Lemma settled_reload w w' :
  requests (trace w') = requests (trace w) ++ [("GET", "/activities")] →
  settled w (fetchActivities w').
Proof.
  intros H. split; [apply fetchActivities_normal|right].
  by rewrite fetchActivities_one_request, H, <- app_assoc.
Qed.

Lemma refresh_settles (activityName : string) (w : World) :
  Css.read_name activityName ≠ Css.Uninterpreted →
  settled w (updateActivityCard activityName w).
Proof.
  intros Hname. unfold updateActivityCard.
  destruct w as [al sel md form fd tr cr ar ck tm]. js_run.
  assert (Hone : ∀ evs, requests evs = [] →
            requests (tr ++ Request "GET" "/activities" :: evs)
            = requests tr ++ [("GET", "/activities")]).
  { intros evs Hevs. rewrite requests_app.
    change (requests (Request "GET" "/activities" :: evs))
      with (("GET", "/activities") :: requests evs).
    by rewrite Hevs. }
  destruct cr as [|[[response_ok [activities|]]|] rest]; simpl;
    try (apply settled_reload; setters; rewrite <- app_assoc; by apply Hone).
  destruct (get_property activities activityName) as [details| |].
  - destruct (Css.read_name activityName) as [|value| |];
      [| |simpl; apply settled_reload; setters; rewrite <- app_assoc; by apply Hone
       |done].
    all: simpl;
      (destruct (first_in _ al) as [card|] eqn:Ecard;
         [|simpl; split; [done|left]; setters; rewrite <- app_assoc; by apply Hone]);
      simpl; destruct (get_at_first_in _ _ _ Ecard) as [n Hn]; rewrite Hn; simpl;
      (destruct (first_in (has_class "availability") (children n)) as [qa|] eqn:Ea;
         simpl;
         [destruct (first_from_cons _ _ _ _ Ea) as (j & q' & ->);
          setters; rewrite !modify_at_compose;
          (destruct (get_at_modify_below card j q'
                       (Dom.appendChild (createTextNode (spots_text details))
                          ∘ Dom.appendChild availabilityStrong
                          ∘ with_children (λ _, [])) al) as [n' Hn'];
             [by rewrite Hn|]);
          rewrite Hn'; simpl;
          (destruct (first_in (has_class "participants-section") (children n'));
             simpl;
             [split; [done|left]; setters; rewrite <- !app_assoc; by apply Hone
             |apply settled_reload; setters; rewrite <- !app_assoc; by apply Hone])
         |setters; rewrite Hn; simpl;
          (destruct (first_in (has_class "participants-section") (children n));
             simpl;
             [split; [done|left]; setters; rewrite <- !app_assoc; by apply Hone
             |apply settled_reload; setters; rewrite <- !app_assoc; by apply Hone])]).
  - destruct (Css.read_name activityName) as [|value| |];
      [| |simpl; apply settled_reload; setters; rewrite <- app_assoc; by apply Hone
       |done].
    all: simpl; destruct (first_in _ al) as [card|] eqn:Ecard; simpl;
      [apply settled_reload; setters; rewrite <- !app_assoc; by apply Hone
      |split; [done|left]; setters; rewrite <- app_assoc; by apply Hone].
  - simpl. split; [done|left]. setters. rewrite <- app_assoc. by apply Hone.
Qed.

End SettleFacts.

(** ** The signup handler, beyond the claims *)

Module SubmitFacts.

(** The refresh handles every exception itself. *)
Lemma updateActivityCard_no_throw name w e : (updateActivityCard name w).1 ≠ Throw e.
Proof.
  unfold updateActivityCard, try_catch.
  match goal with |- context [let '(_, _) := ?b w in _] => destruct (b w) as [[[]|e'|] w'] end;
    try done.
  rewrite bind_run. unfold console_error, emit, modify. simpl.
  by rewrite SettleFacts.fetchActivities_normal.
Qed.

(** After an accepted signup the handler shows the message, resets the
    form, and the rest of its run is the refresh. *)
Lemma onSubmit_accepted_run
    (note : option string) (reason : option string)
    (rest : list (option (Response Result))) (w : World) :
  actionReplies w
  = Some {| ok := true; body := Some {| message := note; detail := reason |} |} :: rest →
  onSubmit w
  = updateActivityCard (activity_value (signupForm w))
      {| activitiesList := activitiesList w; activitySelect := activitySelect w;
         messageDiv := {| text := Val.to_text (Val.of_option note);
                          classes := ["success"] |};
         signupForm := formDefaults w; formDefaults := formDefaults w;
         trace := trace w ++ [PreventDefault; Request "POST" (signup_url w); FormReset];
         catalogReplies := catalogReplies w; actionReplies := rest;
         clock := clock w; timers := timers w ++ [clock w + 5000] |}.
Proof.
  intros Hreply. destruct w as [al sel md form fd tr cr ar ck tm].
  simpl in Hreply. subst ar. unfold onSubmit, showMessage, reset. js_run.
  setters. unfold signup_url. simpl. rewrite <- !app_assoc. simpl.
  match goal with
  | |- (let '(_, _) := ?r in _) = ?r' => change r' with r; destruct r as [[[]|e|] w'] eqn:E
  end; try done.
  exfalso. eapply updateActivityCard_no_throw. by rewrite E.
Qed.

End SubmitFacts.

(** X7.  An accepted signup.  When the server accepts the signup with a
    message, the catalog fetched next lists the selected activity as an
    entry of its own, the selector reads the name exactly, and the card of
    the activity is the first element of that name in the container, then,
    once the refresh has settled: the handler has completed normally; the
    message area shows the server's message with the class [success]; the
    form holds its default values; the card, in its place, shows the
    capacity and the participants of the fresh entry under the description
    and the schedule it was rendered with, and the other children of the
    container are as before; the select is as before; the requests sent are
    the POST and one GET of the catalog; one hide timer is added, due five
    seconds later. *)
Theorem onSubmit_accepted_refreshes_card
    (activities : Catalog) (details old : Activity) (note : string)
    (reason : option string) (response_ok : bool)
    (rest_a : list (option (Response Result)))
    (rest_c : list (option (Response Catalog)))
    (before after : list Node) (w : World) :
  actionReplies w
  = Some {| ok := true; body := Some {| message := Some note; detail := reason |} |}
      :: rest_a →
  catalogReplies w = Some {| ok := response_ok; body := Some activities |} :: rest_c →
  own_property activities (activity_value (signupForm w)) = Some details →
  Css.read_name (activity_value (signupForm w)) = Css.Exact →
  activitiesList w
  = before ++ activityCard (activity_value (signupForm w)) old :: after →
  Dom.first_in (Dom.has_attr "data-activity-name" (activity_value (signupForm w)))
    before = None →
  completion onSubmit w = Normal () ∧
  messageDiv (exec onSubmit w) = {| text := note; classes := ["success"] |} ∧
  signupForm (exec onSubmit w) = formDefaults w ∧
  activitiesList (exec onSubmit w)
  = before
      ++ activityCard (activity_value (signupForm w)) (refreshed old details)
      :: after ∧
  activitySelect (exec onSubmit w) = activitySelect w ∧
  requests (trace (exec onSubmit w))
  = requests (trace w) ++ [("POST", signup_url w); catalog_request] ∧
  timers (exec onSubmit w) = timers w ++ [clock w + 5000].
Proof.
  intros Haction Hcatalog Hown Hname Hlist Hbefore. unfold completion, exec.
  rewrite (SubmitFacts.onSubmit_accepted_run _ _ _ _ Haction).
  erewrite RefreshFacts.updateActivityCard_found;
    [|exact Hcatalog|exact Hown|exact Hname|exact Hlist|exact Hbefore
     |apply CardFacts.has_attr_card].
  cbv zeta. rewrite CardFacts.refresh_card. unfold availability_events.
  rewrite CardFacts.availability_path. simpl.
  repeat split; try done.
  rewrite !requests_app. simpl. by rewrite <- app_assoc.
Qed.

Lemma onSubmit_accepted_refreshes_card_witness :
  completion onSubmit Sample2.signup_page = Normal () ∧
  messageDiv (exec onSubmit Sample2.signup_page)
  = {| text := "Signed up"; classes := ["success"] |} ∧
  signupForm (exec onSubmit Sample2.signup_page) = formDefaults Sample2.signup_page ∧
  activitiesList (exec onSubmit Sample2.signup_page)
  = [] ++ activityCard (activity_value (signupForm Sample2.signup_page))
            (refreshed Sample.chess Sample.chess_joined)
       :: [activityCard "Gym Class" Sample.gym] ∧
  activitySelect (exec onSubmit Sample2.signup_page)
  = activitySelect Sample2.signup_page ∧
  requests (trace (exec onSubmit Sample2.signup_page))
  = requests (trace Sample2.signup_page)
      ++ [("POST", signup_url Sample2.signup_page); catalog_request] ∧
  timers (exec onSubmit Sample2.signup_page)
  = timers Sample2.signup_page ++ [clock Sample2.signup_page + 5000].
Proof.
  apply (onSubmit_accepted_refreshes_card Sample.catalog_joined Sample.chess_joined
           Sample.chess "Signed up" None true [] [] []
           [activityCard "Gym Class" Sample.gym] Sample2.signup_page);
    reflexivity.
Defined.

(** X8.  A signup whose request does not complete, or whose response has
    no JSON body, ends in the catch clause whatever the status of the
    response: the message area shows the generic failure text with the
    class [error], the error is logged, and nothing else happens: the
    form keeps its values, no card and no option changes, no catalog is
    requested. *)
Theorem onSubmit_failure_shows_generic_message (error : JsError) (w : World) :
  action_failure w = Some error →
  onSubmit w
  = (Normal (),
     {| activitiesList := activitiesList w; activitySelect := activitySelect w;
        messageDiv := {| text := "Failed to sign up. Please try again.";
                         classes := ["error"] |};
        signupForm := signupForm w; formDefaults := formDefaults w;
        trace := trace w ++ [PreventDefault; Request "POST" (signup_url w);
                             ConsoleError "Error signing up:" (Some error)];
        catalogReplies := catalogReplies w;
        actionReplies := tail (actionReplies w);
        clock := clock w; timers := timers w ++ [clock w + 5000] |}).
Proof.
  unfold action_failure. intros Hfail. destruct w as [al sel md form fd tr cr ar ck tm].
  simpl in Hfail. unfold onSubmit, showMessage. js_run.
  destruct ar as [|[[response_ok [result|]]|] rest]; simpl in *;
    try discriminate; injection Hfail as <-; setters; unfold signup_url; simpl;
    by rewrite <- !app_assoc.
Qed.

Lemma onSubmit_failure_shows_generic_message_witness :
  onSubmit Sample2.unreachable_page
  = (Normal (),
     {| activitiesList := activitiesList Sample2.unreachable_page;
        activitySelect := activitySelect Sample2.unreachable_page;
        messageDiv := {| text := "Failed to sign up. Please try again.";
                         classes := ["error"] |};
        signupForm := signupForm Sample2.unreachable_page;
        formDefaults := formDefaults Sample2.unreachable_page;
        trace := trace Sample2.unreachable_page
                   ++ [PreventDefault;
                       Request "POST" (signup_url Sample2.unreachable_page);
                       ConsoleError "Error signing up:" (Some FetchFailed)];
        catalogReplies := catalogReplies Sample2.unreachable_page;
        actionReplies := tail (actionReplies Sample2.unreachable_page);
        clock := clock Sample2.unreachable_page;
        timers := timers Sample2.unreachable_page
                    ++ [clock Sample2.unreachable_page + 5000] |}).
Proof.
  apply (onSubmit_failure_shows_generic_message FetchFailed Sample2.unreachable_page).
  reflexivity.
Defined.

(** X9.  A signup answered by a non-ok response whose JSON body has no
    [detail] shows [An error occurred] with the class [error]; the form
    keeps its values, nothing is logged, and no card is refreshed. *)
Theorem onSubmit_rejected_without_detail
    (note : option string) (rest : list (option (Response Result))) (w : World) :
  actionReplies w
  = Some {| ok := false; body := Some {| message := note; detail := None |} |} :: rest →
  onSubmit w
  = (Normal (),
     {| activitiesList := activitiesList w; activitySelect := activitySelect w;
        messageDiv := {| text := "An error occurred"; classes := ["error"] |};
        signupForm := signupForm w; formDefaults := formDefaults w;
        trace := trace w ++ [PreventDefault; Request "POST" (signup_url w)];
        catalogReplies := catalogReplies w; actionReplies := rest;
        clock := clock w; timers := timers w ++ [clock w + 5000] |}).
Proof.
  intros Hreply. destruct w as [al sel md form fd tr cr ar ck tm].
  simpl in Hreply. subst ar. unfold onSubmit, showMessage. js_run.
  setters. unfold signup_url. simpl. by rewrite <- !app_assoc.
Qed.

Lemma onSubmit_rejected_without_detail_witness :
  onSubmit Sample2.bare_rejection_page
  = (Normal (),
     {| activitiesList := activitiesList Sample2.bare_rejection_page;
        activitySelect := activitySelect Sample2.bare_rejection_page;
        messageDiv := {| text := "An error occurred"; classes := ["error"] |};
        signupForm := signupForm Sample2.bare_rejection_page;
        formDefaults := formDefaults Sample2.bare_rejection_page;
        trace := trace Sample2.bare_rejection_page
                   ++ [PreventDefault;
                       Request "POST" (signup_url Sample2.bare_rejection_page)];
        catalogReplies := catalogReplies Sample2.bare_rejection_page;
        actionReplies := [];
        clock := clock Sample2.bare_rejection_page;
        timers := timers Sample2.bare_rejection_page
                    ++ [clock Sample2.bare_rejection_page + 5000] |}).
Proof.
  apply (onSubmit_rejected_without_detail None [] Sample2.bare_rejection_page).
  reflexivity.
Defined.

Module HandlerFacts.

Lemma onSubmit_rejected_run
    (note reason : option string) (rest : list (option (Response Result))) (w : World) :
  actionReplies w
  = Some {| ok := false; body := Some {| message := note; detail := reason |} |} :: rest →
  onSubmit w
  = (Normal (),
     {| activitiesList := activitiesList w; activitySelect := activitySelect w;
        messageDiv := {| text := rejection_text reason; classes := ["error"] |};
        signupForm := signupForm w; formDefaults := formDefaults w;
        trace := trace w ++ [PreventDefault; Request "POST" (signup_url w)];
        catalogReplies := catalogReplies w; actionReplies := rest;
        clock := clock w; timers := timers w ++ [clock w + 5000] |}).
Proof.
  intros Hreply. destruct w as [al sel md form fd tr cr ar ck tm].
  simpl in Hreply. subst ar. unfold onSubmit, showMessage. js_run.
  setters. unfold signup_url. simpl. rewrite <- !app_assoc.
  destruct reason as [reason|]; [|done]. unfold Val.or, rejection_text. simpl.
  by case_bool_decide.
Qed.

Lemma onSubmit_failed_run (error : JsError) (w : World) :
  action_failure w = Some error →
  trace (onSubmit w).2
  = trace w ++ [PreventDefault; Request "POST" (signup_url w);
                ConsoleError "Error signing up:" (Some error)].
Proof.
  unfold action_failure. intros Hfail. destruct w as [al sel md form fd tr cr ar ck tm].
  simpl in Hfail. unfold onSubmit, showMessage. js_run.
  destruct ar as [|[[response_ok [result|]]|] rest]; simpl in *;
    try discriminate; injection Hfail as <-; setters; unfold signup_url; simpl;
    by rewrite <- !app_assoc.
Qed.

Lemma action_cases (w : World) :
  (∃ error, action_failure w = Some error)
  ∨ (∃ response_ok note reason rest,
       actionReplies w
       = Some {| ok := response_ok;
                 body := Some {| message := note; detail := reason |} |} :: rest).
Proof.
  unfold action_failure.
  destruct (actionReplies w) as [|[[response_ok [[note reason]|]]|] rest]; simpl; eauto 10.
Qed.

End HandlerFacts.

(** X4.  A refresh never fails and never loops.  For every name whose
    selector the model interprets, every page and every sequence of
    replies, the refresh completes normally, and it has sent either one
    request for the catalog (the card was patched, or the activity or its
    card was missing) or two (the refresh fell back on the full load, once
    and never again). *)
Theorem updateActivityCard_always_settles (activityName : string) (w : World) :
  Css.read_name activityName ≠ Css.Uninterpreted →
  completion (updateActivityCard activityName) w = Normal () ∧
  (requests (trace (exec (updateActivityCard activityName) w))
   = requests (trace w) ++ [catalog_request]
   ∨ requests (trace (exec (updateActivityCard activityName) w))
     = requests (trace w) ++ [catalog_request; catalog_request]).
Proof. apply SettleFacts.refresh_settles. Qed.

Lemma updateActivityCard_always_settles_witness :
  completion (updateActivityCard Sample.quoted_name) Sample.failed_page = Normal () ∧
  (requests (trace (exec (updateActivityCard Sample.quoted_name) Sample.failed_page))
   = requests (trace Sample.failed_page) ++ [catalog_request]
   ∨ requests (trace (exec (updateActivityCard Sample.quoted_name) Sample.failed_page))
     = requests (trace Sample.failed_page) ++ [catalog_request; catalog_request]).
Proof.
  apply (updateActivityCard_always_settles Sample.quoted_name Sample.failed_page).
  discriminate.
Defined.

(** X10.  Every submission of two well-formed values, on any page and
    whatever the server answers, first cancels the default action and then
    sends one POST, to the signup URL of the two values in the form;
    whatever follows in the trace contains no request but reads of the
    catalog.  So such a submission never signs up twice and never removes
    anybody.  (With a lone surrogate in a value [encodeURIComponent] throws
    and no request is sent: those values have no bytes here.) *)
Theorem onSubmit_sends_one_signup (w : World) :
  Str.well_formed (activity_value (signupForm w)) = true →
  Str.well_formed (email_value (signupForm w)) = true →
  ∃ later,
    trace (exec onSubmit w)
    = trace w ++ PreventDefault :: Request "POST" (signup_url w) :: later ∧
    Forall reads_catalog_only later.
Proof.
  intros _ _. unfold exec.
  destruct (HandlerFacts.action_cases w)
    as [[error Hfail]|(rok & note & reason & rest & Hreply)].
  - rewrite (HandlerFacts.onSubmit_failed_run error w Hfail).
    eexists. split; [reflexivity|]. by repeat constructor.
  - destruct rok.
    + rewrite (SubmitFacts.onSubmit_accepted_run _ _ _ _ Hreply).
      match goal with
      | |- context [updateActivityCard ?n ?W] =>
          destruct (FrameFacts.only_updateActivityCard n W) as (added & -> & Hall)
      end.
      simpl. exists (FormReset :: added). rewrite <- app_assoc. simpl.
      split; [done|]. by constructor.
    + rewrite (HandlerFacts.onSubmit_rejected_run _ _ _ _ Hreply). simpl.
      exists []. by split.
Qed.

Lemma onSubmit_sends_one_signup_witness :
  ∃ later,
    trace (exec onSubmit Sample2.signup_page)
    = trace Sample2.signup_page
        ++ PreventDefault :: Request "POST" (signup_url Sample2.signup_page) :: later ∧
    Forall reads_catalog_only later.
Proof.
  apply (onSubmit_sends_one_signup Sample2.signup_page); reflexivity.
Defined.

(** ** The click handler, beyond the claims *)

Module ClickFacts.

(** With the removal confirmed and accepted, the handler's run is the
    refresh followed by the message. *)
Lemma onClick_accepted_run
    (target : Node) (note reason : option string)
    (rest : list (option (Response Result))) (w : World) :
  Dom.has_class "remove-participant-btn" target = true →
  actionReplies w
  = Some {| ok := true; body := Some {| message := note; detail := reason |} |} :: rest →
  onClick target true w
  = (updateActivityCard (target_activity target) ;;
     showMessage (Val.of_option note) "success")
      (set_actionReplies (λ _, rest)
         (set_trace (λ t, t ++ [Confirm (confirmationMessage target);
                                Request "DELETE" (unregister_url target)]) w)).
Proof.
  intros Hbtn Hreply. destruct w as [al sel md form fd tr cr ar ck tm].
  simpl in Hreply. subst ar. unfold onClick. rewrite Hbtn. js_run.
  setters. rewrite <- !app_assoc. simpl.
  fold (target_activity target). fold (unregister_url target).
  fold (confirmationMessage target).
  match goal with
  | |- _ = (let '(_, _) := ?r in _) => set (R := r)
  end.
  change (updateActivityCard (target_activity target) _) with R.
  destruct R as [[[]|e|] w'] eqn:E; try done.
  exfalso. eapply SubmitFacts.updateActivityCard_no_throw. subst R. by rewrite E.
Qed.

Lemma onClick_rejected_run
    (target : Node) (note reason : option string)
    (rest : list (option (Response Result))) (w : World) :
  Dom.has_class "remove-participant-btn" target = true →
  actionReplies w
  = Some {| ok := false; body := Some {| message := note; detail := reason |} |} :: rest →
  onClick target true w
  = (Normal (),
     {| activitiesList := activitiesList w; activitySelect := activitySelect w;
        messageDiv := {| text := rejection_text reason; classes := ["error"] |};
        signupForm := signupForm w; formDefaults := formDefaults w;
        trace := trace w ++ [Confirm (confirmationMessage target);
                             Request "DELETE" (unregister_url target)];
        catalogReplies := catalogReplies w; actionReplies := rest;
        clock := clock w; timers := timers w ++ [clock w + 5000] |}).
Proof.
  intros Hbtn Hreply. destruct w as [al sel md form fd tr cr ar ck tm].
  simpl in Hreply. subst ar. unfold onClick, showMessage. rewrite Hbtn. js_run.
  setters. rewrite <- !app_assoc.
  destruct reason as [reason|]; [|done]. unfold Val.or, rejection_text. simpl.
  by case_bool_decide.
Qed.

Lemma onClick_failed_run (target : Node) (error : JsError) (w : World) :
  Dom.has_class "remove-participant-btn" target = true →
  action_failure w = Some error →
  onClick target true w
  = (Normal (),
     {| activitiesList := activitiesList w; activitySelect := activitySelect w;
        messageDiv := {| text := "Failed to remove participant. Please try again.";
                         classes := ["error"] |};
        signupForm := signupForm w; formDefaults := formDefaults w;
        trace := trace w ++ [Confirm (confirmationMessage target);
                             Request "DELETE" (unregister_url target);
                             ConsoleError "Error removing participant:" (Some error)];
        catalogReplies := catalogReplies w;
        actionReplies := tail (actionReplies w);
        clock := clock w; timers := timers w ++ [clock w + 5000] |}).
Proof.
  unfold action_failure. intros Hbtn Hfail.
  destruct w as [al sel md form fd tr cr ar ck tm].
  simpl in Hfail. unfold onClick, showMessage. rewrite Hbtn. js_run.
  destruct ar as [|[[response_ok [result|]]|] rest]; simpl in *;
    try discriminate; injection Hfail as <-; setters; by rewrite <- !app_assoc.
Qed.

Lemma onClick_trace (target : Node) (answer : bool) (w : World) :
  ∃ later,
    Forall reads_catalog_only later ∧
    trace (onClick target answer w).2
    = trace w
        ++ (if Dom.has_class "remove-participant-btn" target
            then Confirm (confirmationMessage target)
                   :: (if answer
                       then Request "DELETE" (unregister_url target) :: later
                       else [])
            else []).
Proof.
  destruct (Dom.has_class "remove-participant-btn" target) eqn:Hbtn.
  2:{ exists []. split; [done|]. unfold onClick. rewrite Hbtn. simpl.
      by rewrite app_nil_r. }
  destruct answer.
  2:{ exists []. split; [done|]. unfold onClick. rewrite Hbtn. js_run.
      by destruct w. }
  destruct (HandlerFacts.action_cases w)
    as [[error Hfail]|(rok & note & reason & rest & Hreply)].
  - rewrite (onClick_failed_run _ _ _ Hbtn Hfail). simpl.
    eexists. split; [|reflexivity]. by repeat constructor.
  - destruct rok.
    + rewrite (onClick_accepted_run _ _ _ _ _ Hbtn Hreply), bind_run.
      match goal with
      | |- context [updateActivityCard ?n ?W] =>
          destruct (FrameFacts.only_updateActivityCard n W) as (added & Htrace & Hall);
          destruct (updateActivityCard n W) as [[[]|e|] w'] eqn:E
      end; cbn [fst snd] in Htrace |- *.
      * rewrite MessageFacts.showMessage_run. exists added. split; [done|].
        destruct w'. simpl in *. rewrite Htrace. destruct w. simpl.
        by rewrite <- app_assoc.
      * exists added. split; [done|]. simpl. rewrite Htrace. destruct w. simpl.
        by rewrite <- app_assoc.
      * exists added. split; [done|]. simpl. rewrite Htrace. destruct w. simpl.
        by rewrite <- app_assoc.
    + rewrite (onClick_rejected_run _ _ _ _ _ Hbtn Hreply). simpl.
      exists []. by split.
Qed.

End ClickFacts.

(** X12.  The whole trace of a click, for every element whose two
    [data-] values are well formed, every answer to the prompt and every
    page.  A click on an element without the class
    [remove-participant-btn] adds nothing.  A click on an element with the
    class prompts once, with the text built from the element's two
    attributes; declined, that is all; confirmed, one DELETE follows, to the
    unregister URL of the same two attributes, and whatever comes after it
    contains no request but reads of the catalog.  (With a lone surrogate
    in a value [encodeURIComponent] throws and no request is sent: those
    values have no bytes here.) *)
Theorem onClick_sends_at_most_one_removal (target : Node) (answer : bool) (w : World) :
  Str.well_formed (target_activity target) = true →
  Str.well_formed (target_email target) = true →
  ∃ later,
    Forall reads_catalog_only later ∧
    trace (exec (onClick target answer) w)
    = trace w
        ++ (if Dom.has_class "remove-participant-btn" target
            then Confirm (confirmationMessage target)
                   :: (if answer
                       then Request "DELETE" (unregister_url target) :: later
                       else [])
            else []).
Proof. intros _ _. apply ClickFacts.onClick_trace. Qed.

Lemma onClick_sends_at_most_one_removal_witness :
  ∃ later,
    Forall reads_catalog_only later ∧
    trace (exec (onClick Sample.remove_button true) Sample2.removal_page)
    = trace Sample2.removal_page
        ++ (if Dom.has_class "remove-participant-btn" Sample.remove_button
            then Confirm (confirmationMessage Sample.remove_button)
                   :: (if true
                       then Request "DELETE" (unregister_url Sample.remove_button)
                              :: later
                       else [])
            else []).
Proof.
  apply (onClick_sends_at_most_one_removal Sample.remove_button true
           Sample2.removal_page); reflexivity.
Defined.

(** X13.  An accepted removal.  When the click is on a removal control,
    the user confirms, the server accepts with a message, the catalog
    fetched next lists the activity the control names as an entry of its
    own, the selector reads the name exactly, and the card of the activity
    is the first element of that name in the container, then, once the
    refresh has settled: the handler has completed normally; the message
    area shows the server's message with the class [success]; the card, in
    its place, shows the capacity and the participants of the fresh entry,
    and the other children of the container are as before; the select and
    the form are as before; the requests sent are the DELETE and one GET
    of the catalog; one hide timer is added, due five seconds later. *)
Theorem onClick_accepted_refreshes_card
    (target : Node) (activityName : string) (activities : Catalog)
    (details old : Activity) (note : string) (reason : option string)
    (response_ok : bool) (rest_a : list (option (Response Result)))
    (rest_c : list (option (Response Catalog)))
    (before after : list Node) (w : World) :
  Dom.has_class "remove-participant-btn" target = true →
  Dom.getAttribute "data-activity" target = Some activityName →
  actionReplies w
  = Some {| ok := true; body := Some {| message := Some note; detail := reason |} |}
      :: rest_a →
  catalogReplies w = Some {| ok := response_ok; body := Some activities |} :: rest_c →
  own_property activities activityName = Some details →
  Css.read_name activityName = Css.Exact →
  activitiesList w = before ++ activityCard activityName old :: after →
  Dom.first_in (Dom.has_attr "data-activity-name" activityName) before = None →
  completion (onClick target true) w = Normal () ∧
  messageDiv (exec (onClick target true) w)
  = {| text := note; classes := ["success"] |} ∧
  activitiesList (exec (onClick target true) w)
  = before ++ activityCard activityName (refreshed old details) :: after ∧
  activitySelect (exec (onClick target true) w) = activitySelect w ∧
  signupForm (exec (onClick target true) w) = signupForm w ∧
  requests (trace (exec (onClick target true) w))
  = requests (trace w) ++ [("DELETE", unregister_url target); catalog_request] ∧
  timers (exec (onClick target true) w) = timers w ++ [clock w + 5000].
Proof.
  intros Hbtn Hdata Haction Hcatalog Hown Hname Hlist Hbefore.
  unfold completion, exec.
  rewrite (ClickFacts.onClick_accepted_run _ _ _ _ _ Hbtn Haction).
  unfold target_activity. rewrite Hdata. simpl Val.to_string.
  rewrite bind_run.
  erewrite RefreshFacts.updateActivityCard_found;
    [|exact Hcatalog|exact Hown|exact Hname|exact Hlist|exact Hbefore
     |apply CardFacts.has_attr_card].
  cbv zeta. rewrite CardFacts.refresh_card. unfold availability_events.
  rewrite CardFacts.availability_path, MessageFacts.showMessage_run.
  destruct w as [al sel md form fd tr cr ar ck tm]. simpl.
  repeat split; try done.
  rewrite !requests_app. simpl. by rewrite <- app_assoc.
Qed.

Lemma onClick_accepted_refreshes_card_witness :
  completion (onClick Sample.remove_button true) Sample2.removal_page = Normal () ∧
  messageDiv (exec (onClick Sample.remove_button true) Sample2.removal_page)
  = {| text := "Unregistered a@x.com from Chess Club"; classes := ["success"] |} ∧
  activitiesList (exec (onClick Sample.remove_button true) Sample2.removal_page)
  = [] ++ activityCard "Chess Club" (refreshed Sample.chess Sample2.chess_left)
       :: [activityCard "Gym Class" Sample.gym] ∧
  activitySelect (exec (onClick Sample.remove_button true) Sample2.removal_page)
  = activitySelect Sample2.removal_page ∧
  signupForm (exec (onClick Sample.remove_button true) Sample2.removal_page)
  = signupForm Sample2.removal_page ∧
  requests (trace (exec (onClick Sample.remove_button true) Sample2.removal_page))
  = requests (trace Sample2.removal_page)
      ++ [("DELETE", unregister_url Sample.remove_button); catalog_request] ∧
  timers (exec (onClick Sample.remove_button true) Sample2.removal_page)
  = timers Sample2.removal_page ++ [clock Sample2.removal_page + 5000].
Proof.
  apply (onClick_accepted_refreshes_card Sample.remove_button "Chess Club"
           Sample2.catalog_left Sample2.chess_left Sample.chess
           "Unregistered a@x.com from Chess Club" None true [] [] []
           [activityCard "Gym Class" Sample.gym] Sample2.removal_page);
    reflexivity.
Defined.

(** X14.  A confirmed removal answered by a non-ok response with a JSON
    body shows the [detail] of the body, or [An error occurred] when the
    detail is missing or empty, with the class [error]; nothing is logged,
    no card changes and no catalog is requested. *)
Theorem onClick_rejected_shows_detail_or_fallback
    (target : Node) (note reason : option string)
    (rest : list (option (Response Result))) (w : World) :
  Dom.has_class "remove-participant-btn" target = true →
  actionReplies w
  = Some {| ok := false; body := Some {| message := note; detail := reason |} |} :: rest →
  onClick target true w
  = (Normal (),
     {| activitiesList := activitiesList w; activitySelect := activitySelect w;
        messageDiv := {| text := rejection_text reason; classes := ["error"] |};
        signupForm := signupForm w; formDefaults := formDefaults w;
        trace := trace w ++ [Confirm (confirmationMessage target);
                             Request "DELETE" (unregister_url target)];
        catalogReplies := catalogReplies w; actionReplies := rest;
        clock := clock w; timers := timers w ++ [clock w + 5000] |}).
Proof. apply ClickFacts.onClick_rejected_run. Qed.

Lemma onClick_rejected_shows_detail_or_fallback_witness :
  onClick Sample.remove_button true Sample2.rejecting_page
  = (Normal (),
     {| activitiesList := activitiesList Sample2.rejecting_page;
        activitySelect := activitySelect Sample2.rejecting_page;
        messageDiv := {| text := rejection_text (Some "Student is not signed up");
                         classes := ["error"] |};
        signupForm := signupForm Sample2.rejecting_page;
        formDefaults := formDefaults Sample2.rejecting_page;
        trace := trace Sample2.rejecting_page
                   ++ [Confirm (confirmationMessage Sample.remove_button);
                       Request "DELETE" (unregister_url Sample.remove_button)];
        catalogReplies := catalogReplies Sample2.rejecting_page;
        actionReplies := [];
        clock := clock Sample2.rejecting_page;
        timers := timers Sample2.rejecting_page
                    ++ [clock Sample2.rejecting_page + 5000] |}).
Proof.
  apply (onClick_rejected_shows_detail_or_fallback Sample.remove_button None
           (Some "Student is not signed up") [] Sample2.rejecting_page);
    reflexivity.
Defined.

(** X15.  A confirmed removal whose request does not complete, or whose
    response has no JSON body, ends in the catch clause: the message area
    shows the generic failure text of removals with the class [error], the
    error is logged, no card changes and no catalog is requested. *)
Theorem onClick_failure_shows_generic_message
    (target : Node) (error : JsError) (w : World) :
  Dom.has_class "remove-participant-btn" target = true →
  action_failure w = Some error →
  onClick target true w
  = (Normal (),
     {| activitiesList := activitiesList w; activitySelect := activitySelect w;
        messageDiv := {| text := "Failed to remove participant. Please try again.";
                         classes := ["error"] |};
        signupForm := signupForm w; formDefaults := formDefaults w;
        trace := trace w ++ [Confirm (confirmationMessage target);
                             Request "DELETE" (unregister_url target);
                             ConsoleError "Error removing participant:" (Some error)];
        catalogReplies := catalogReplies w;
        actionReplies := tail (actionReplies w);
        clock := clock w; timers := timers w ++ [clock w + 5000] |}).
Proof. apply ClickFacts.onClick_failed_run. Qed.

Lemma onClick_failure_shows_generic_message_witness :
  onClick Sample.remove_button true Sample2.unreachable_page
  = (Normal (),
     {| activitiesList := activitiesList Sample2.unreachable_page;
        activitySelect := activitySelect Sample2.unreachable_page;
        messageDiv := {| text := "Failed to remove participant. Please try again.";
                         classes := ["error"] |};
        signupForm := signupForm Sample2.unreachable_page;
        formDefaults := formDefaults Sample2.unreachable_page;
        trace := trace Sample2.unreachable_page
                   ++ [Confirm (confirmationMessage Sample.remove_button);
                       Request "DELETE" (unregister_url Sample.remove_button);
                       ConsoleError "Error removing participant:" (Some FetchFailed)];
        catalogReplies := catalogReplies Sample2.unreachable_page;
        actionReplies := tail (actionReplies Sample2.unreachable_page);
        clock := clock Sample2.unreachable_page;
        timers := timers Sample2.unreachable_page
                    ++ [clock Sample2.unreachable_page + 5000] |}).
Proof.
  apply (onClick_failure_shows_generic_message Sample.remove_button FetchFailed
           Sample2.unreachable_page); reflexivity.
Defined.

(** ** The URLs of the two requests *)

Module UrlFacts.

Lemma append_cons (c : ascii) (s t : string) : String c s +:+ t = String c (s +:+ t).
Proof. reflexivity. Qed.

Lemma append_empty (t : string) : "" +:+ t = t.
Proof. reflexivity. Qed.

Lemma hex_digit_inj (n m : nat) :
  (n < 16)%nat → (m < 16)%nat → Str.hex_digit n = Str.hex_digit m → n = m.
Proof.
  intros Hn Hm H. unfold Str.hex_digit in H.
  apply (f_equal nat_of_ascii) in H.
  destruct (Nat.ltb_spec n 10), (Nat.ltb_spec m 10);
    rewrite !nat_ascii_embedding in H by lia; lia.
Qed.

Lemma escape_inj (c c' : ascii) :
  Str.hex_digit (nat_of_ascii c / 16) = Str.hex_digit (nat_of_ascii c' / 16) →
  Str.hex_digit (nat_of_ascii c mod 16) = Str.hex_digit (nat_of_ascii c' mod 16) →
  c = c'.
Proof.
  intros Hhi Hlo.
  pose proof (nat_ascii_bounded c) as Hc. pose proof (nat_ascii_bounded c') as Hc'.
  apply hex_digit_inj in Hhi;
    [|apply Nat.Div0.div_lt_upper_bound; lia|apply Nat.Div0.div_lt_upper_bound; lia].
  apply hex_digit_inj in Hlo; [|apply Nat.mod_upper_bound; lia|apply Nat.mod_upper_bound; lia].
  rewrite <- (ascii_nat_embedding c), <- (ascii_nat_embedding c'). f_equal.
  rewrite (Nat.div_mod_eq (nat_of_ascii c) 16), (Nat.div_mod_eq (nat_of_ascii c') 16).
  by rewrite Hhi, Hlo.
Qed.

(** An encoded segment followed by a slash splits in one way only. *)
Lemma encode_slash_inj (a a' x x' : string) :
  Str.encodeURIComponent a +:+ String "/" x
  = Str.encodeURIComponent a' +:+ String "/" x' →
  a = a' ∧ x = x'.
Proof.
  revert a'. induction a as [|c r IH]; intros [|c' r']; cbn [Str.encodeURIComponent].
  - rewrite !append_empty. by intros [= ->].
  - rewrite append_empty. destruct (Str.uri_unreserved c') eqn:E;
      rewrite !append_cons; intros H; inversion H; subst.
    vm_compute in E. discriminate.
  - rewrite append_empty. destruct (Str.uri_unreserved c) eqn:E;
      rewrite !append_cons; intros H; inversion H; subst.
    vm_compute in E. discriminate.
  - destruct (Str.uri_unreserved c) eqn:E, (Str.uri_unreserved c') eqn:E';
      rewrite !append_cons.
    + intros [= -> H]. by destruct (IH _ H) as [-> ->].
    + intros [= -> _]. vm_compute in E. discriminate.
    + intros [= <- _]. vm_compute in E'. discriminate.
    + intros [= Hhi Hlo H]. destruct (IH _ H) as [-> ->].
      by rewrite (escape_inj _ _ Hhi Hlo).
Qed.

Lemma encode_inj (e e' : string) :
  Str.encodeURIComponent e = Str.encodeURIComponent e' → e = e'.
Proof.
  intros H. apply (encode_slash_inj e e' "" ""). by rewrite H.
Qed.

Lemma action_path_inj (verb a e a' e' : string) :
  "/activities/" +:+ Str.encodeURIComponent a
    +:+ String "/" (verb +:+ Str.encodeURIComponent e)
  = "/activities/" +:+ Str.encodeURIComponent a'
      +:+ String "/" (verb +:+ Str.encodeURIComponent e') →
  a = a' ∧ e = e'.
Proof.
  rewrite !append_cons, !append_empty. intros [= H].
  apply encode_slash_inj in H as [-> H]. split; [done|].
  apply encode_inj. revert H. generalize (Str.encodeURIComponent e).
  generalize (Str.encodeURIComponent e'). clear.
  induction verb as [|c r IH]; intros s s'; [done|].
  rewrite !append_cons. intros [= H]. by apply IH.
Qed.

End UrlFacts.

(** X11.  The URL of a signup request names one activity and one email:
    two submissions that send the same URL were made with the same
    activity selected and the same address typed, whatever characters,
    slashes, question marks and percent signs included, the two values
    contain. *)
Theorem signup_url_names_one_signup (w w' : World) :
  signup_url w = signup_url w' →
  activity_value (signupForm w) = activity_value (signupForm w') ∧
  email_value (signupForm w) = email_value (signupForm w').
Proof. apply (UrlFacts.action_path_inj "signup?email="). Qed.

Lemma signup_url_names_one_signup_witness :
  activity_value (signupForm Sample2.signup_page)
  = activity_value (signupForm Sample2.rejecting_page) ∧
  email_value (signupForm Sample2.signup_page)
  = email_value (signupForm Sample2.rejecting_page).
Proof.
  apply (signup_url_names_one_signup Sample2.signup_page Sample2.rejecting_page).
  reflexivity.
Defined.

(** X16.  The URL of a removal request names one activity and one email
    in the same way: two clicks that send the same URL were made on
    elements with the same two values, as strings, in [data-activity] and
    [data-email]. *)
Theorem unregister_url_names_one_removal (target target' : Node) :
  unregister_url target = unregister_url target' →
  target_activity target = target_activity target' ∧
  target_email target = target_email target'.
Proof. apply (UrlFacts.action_path_inj "unregister?email="). Qed.

Lemma unregister_url_names_one_removal_witness :
  target_activity Sample.remove_button
  = target_activity (Dom.textContent "x" Sample.remove_button) ∧
  target_email Sample.remove_button
  = target_email (Dom.textContent "x" Sample.remove_button).
Proof.
  apply (unregister_url_names_one_removal Sample.remove_button
           (Dom.textContent "x" Sample.remove_button)).
  reflexivity.
Defined.

(** ** From the cards to the click handler *)

Module ItemFacts.

Lemma removal_control_listItem (name email : string) :
  removal_control (listItem name email)
  = Some (Elem "button" ["remove-participant-btn"]
            [("data-activity", name); ("data-email", email);
             ("aria-label", "Remove " +:+ email +:+ " from " +:+ name)]
            [Text "🗑️"]).
Proof.
  unfold removal_control, listItem, Dom.textContent. simpl.
  by destruct (bool_decide (email = "")).
Qed.

Lemma textContent_unclassed cls text tag :
  Dom.first_match (Dom.has_class cls) (Dom.textContent text (Dom.createElement tag))
  = None.
Proof. unfold Dom.textContent. simpl. by destruct (bool_decide (text = "")). Qed.

Lemma participant_items_card (name : string) (details : Activity) :
  participant_items (activityCard name details)
  = listItem name <$> participants details.
Proof.
  unfold participant_items, activityCard, Dom.first_in.
  cbn [Dom.children Dom.appendChild Dom.with_children Dom.className Dom.setAttribute
       Dom.createElement app Dom.first_from].
  rewrite !textContent_unclassed.
  assert (Hp : ∀ (l : list Node),
             Dom.first_match (Dom.has_class "participants-list") (Elem "p" [] [] l)
             = Dom.first_in (Dom.has_class "participants-list") l).
  { intros l. by rewrite DomFacts.first_match_elem. }
  rewrite Hp. unfold Dom.first_in at 1. cbn [Dom.first_from].
  rewrite textContent_unclassed.
  change (Dom.first_match _ (Dom.createTextNode _)) with (@None Path).
  cbv iota beta.
  rewrite (DomFacts.first_match_elem _ "p").
  change (Dom.has_class "participants-list" (Elem "p" (Str.tokens "availability") _ _))
    with false.
  unfold Dom.first_in at 1. cbn [Dom.first_from].
  unfold availabilityStrong at 1. rewrite textContent_unclassed.
  change (Dom.first_match _ (Dom.createTextNode _)) with (@None Path).
  cbv iota beta.
  rewrite (DomFacts.first_match_elem _ "div").
  change (Dom.has_class "participants-list"
            (Elem "div" (Str.tokens "participants-section") _ _)) with false.
  unfold Dom.first_in at 1. cbn [Dom.first_from].
  unfold participantsLabel at 1. rewrite textContent_unclassed.
  unfold participantsBody.
  destruct (participants details) as [|email rest] eqn:E.
  - reflexivity.
  - change (0 <? length (email :: rest))%nat with true. cbv iota.
    unfold participantsList, Dom.className, Dom.createElement.
    rewrite TextFacts.participantsList_children. reflexivity.
Qed.

End ItemFacts.

(** X17.  Rendering and the click handler agree.  The card of an entry
    has one list item for each of its participants, in the order of the
    entry, and none when there are no participants; the last child of each
    item is a removal control: an element with the class the click
    handler looks for that carries the name of the activity in
    [data-activity] and the address in [data-email].  This holds for every
    name and every entry, hence for the cards a load builds and for the
    lists a refresh rebuilds. *)
Theorem card_controls_name_the_participants (name : string) (details : Activity) :
  length (participant_items (activityCard name details))
  = length (participants details) ∧
  omap (λ item, removal_control item ≫= Dom.getAttribute "data-email")
    (participant_items (activityCard name details))
  = participants details ∧
  Forall (λ item, ∃ control,
            removal_control item = Some control ∧
            Dom.has_class "remove-participant-btn" control = true ∧
            Dom.getAttribute "data-activity" control = Some name)
    (participant_items (activityCard name details)).
Proof.
  rewrite ItemFacts.participant_items_card. split; [by rewrite length_fmap|].
  split.
  - induction (participants details) as [|email rest IH]; [done|].
    cbn [fmap list_fmap omap list_omap].
    rewrite ItemFacts.removal_control_listItem. simpl. f_equal. exact IH.
  - apply Forall_fmap, Forall_forall. intros email _. simpl.
    rewrite ItemFacts.removal_control_listItem. eauto.
Qed.

(** X18.  From a rendered card to the request.  For every participant of
    an entry, the name and the address well formed, the card of the entry
    holds a removal control such that a confirmed click on it, in any
    state of the page, prompts with the address and the name of the
    activity and then sends a DELETE for just that activity and that
    address; requests that follow, if any, are reads of the catalog.
    (With a lone surrogate in the name or the address
    [encodeURIComponent] throws and no request is sent: those values have
    no bytes here.) *)
Theorem rendered_control_removes_its_participant
    (name : string) (details : Activity) (email : string) (w : World) :
  Str.well_formed name = true →
  Str.well_formed email = true →
  email ∈ participants details →
  ∃ item control later,
    item ∈ participant_items (activityCard name details) ∧
    removal_control item = Some control ∧
    Forall reads_catalog_only later ∧
    trace (exec (onClick control true) w)
    = trace w
        ++ Confirm ("Remove participant " +:+ dquote +:+ email +:+ dquote
                      +:+ " from activity " +:+ dquote +:+ name +:+ dquote +:+ "?")
        :: Request "DELETE" (unregister_path name email) :: later.
Proof.
  intros _ _ Hin.
  destruct (ClickFacts.onClick_trace
              (Elem "button" ["remove-participant-btn"]
                 [("data-activity", name); ("data-email", email);
                  ("aria-label", "Remove " +:+ email +:+ " from " +:+ name)]
                 [Text "🗑️"]) true w) as (later & Hall & Htrace).
  eexists _, _, later. split; [|split; [apply ItemFacts.removal_control_listItem|]].
  - rewrite ItemFacts.participant_items_card. apply list_elem_of_fmap.
    exists email. split; [reflexivity|exact Hin].
  - split; [exact Hall|]. exact Htrace.
Qed.

Lemma rendered_control_removes_its_participant_witness :
  ∃ item control later,
    item ∈ participant_items (activityCard "Chess Club" Sample.chess_joined) ∧
    removal_control item = Some control ∧
    Forall reads_catalog_only later ∧
    trace (exec (onClick control true) Sample2.removal_page)
    = trace Sample2.removal_page
        ++ Confirm ("Remove participant " +:+ dquote +:+ "b@x.com" +:+ dquote
                      +:+ " from activity " +:+ dquote +:+ "Chess Club" +:+ dquote
                      +:+ "?")
        :: Request "DELETE" (unregister_path "Chess Club" "b@x.com") :: later.
Proof.
  apply (rendered_control_removes_its_participant "Chess Club" Sample.chess_joined
           "b@x.com" Sample2.removal_page); [reflexivity|reflexivity|].
  vm_compute. right. left.
Defined.
